(** * LC-3 virtual machine (src/vm.c): shallow embedding and checked properties

    The C program keeps its whole state in two global arrays,
    [memory] and [registers], and talks to the host through the C
    library (getchar, putc, printf, fopen) and a console poll.  The
    embedding threads that state through a small state-and-stop monad:
    a computation takes a [machine] and either returns a value and a new
    machine, or stops the process ([exit], [abort]), or indexes an array
    outside its bounds, which C leaves undefined.

    Words are [Z] with the conversion to [uint16_t] written out as
    [wrap16]; arrays are lists read with stdpp's lookup and written with
    stdpp's insert, behind an explicit bounds test. *)

From Stdlib Require Import ZArith Lia Bool String.
From stdpp Require Import base option list.

Local Open Scope Z_scope.

(* ===================================================================== *)
(** ** Integer conversions of the C program                               *)
(* ===================================================================== *)

(** Conversion of an [int] to [uint16_t]. *)
Definition wrap16 (x : Z) : Z := x mod 65536.

(** Conversion of an [int] to [char]; [char] is signed on the platform the
    program is written for (it includes Windows.h and conio.h). *)
Definition to_char (x : Z) : Z := (x + 128) mod 256 - 128.

(** Conversion of an [int] to [unsigned char], as [putc] does before it
    writes the byte. *)
Definition to_uchar (x : Z) : Z := x mod 256.

Definition UINT16_MAX : Z := 65535.
Definition EOF : Z := -1.

(* ===================================================================== *)
(** ** Enumerations                                                       *)
(* ===================================================================== *)

Definition R_R0 : Z := 0.
Definition R_R1 : Z := 1.
Definition R_R2 : Z := 2.
Definition R_R3 : Z := 3.
Definition R_R4 : Z := 4.
Definition R_R5 : Z := 5.
Definition R_R6 : Z := 6.
Definition R_R7 : Z := 7.
Definition R_PC : Z := 8.
Definition R_COND : Z := 9.
Definition R_COUNT : Z := 10.

Definition FL_POS : Z := Z.shiftl 1 0.
Definition FL_ZRO : Z := Z.shiftl 1 1.
Definition FL_NEG : Z := Z.shiftl 1 2.

Definition OP_BR : Z := 0.
Definition OP_ADD : Z := 1.
Definition OP_LD : Z := 2.
Definition OP_ST : Z := 3.
Definition OP_JSR : Z := 4.
Definition OP_AND : Z := 5.
Definition OP_LDR : Z := 6.
Definition OP_STR : Z := 7.
Definition OP_RTI : Z := 8.
Definition OP_NOT : Z := 9.
Definition OP_LDI : Z := 10.
Definition OP_STI : Z := 11.
Definition OP_JMP : Z := 12.
Definition OP_RES : Z := 13.
Definition OP_LEA : Z := 14.
Definition OP_TRAP : Z := 15.

Definition MR_KBSR : Z := 0xFE00.
Definition MR_KBDR : Z := 0xFE02.

Definition TRAP_GETC : Z := 0x20.
Definition TRAP_OUT : Z := 0x21.
Definition TRAP_PUTS : Z := 0x22.
Definition TRAP_IN : Z := 0x23.
Definition TRAP_PUTSP : Z := 0x24.
Definition TRAP_HALT : Z := 0x25.

Definition PC_START : Z := 0x3000.

(* ===================================================================== *)
(** ** Pure helpers: signExtend, swap16                                   *)
(* ===================================================================== *)

(** [if ((x >> (bitCount - 1)) & 1) x |= (0xFFFF << bitCount); return x;]
    The or is computed on [int] and stored back into the 16-bit [x]. *)
Definition signExtend (x bitCount : Z) : Z :=
  if negb (Z.land (Z.shiftr x (bitCount - 1)) 1 =? 0)
  then wrap16 (Z.lor x (Z.shiftl 0xFFFF bitCount))
  else x.

(** [return (x << 8) | (x >> 8);] converted to the 16-bit result. *)
Definition swap16 (x : Z) : Z :=
  wrap16 (Z.lor (Z.shiftl x 8) (Z.shiftr x 8)).

(* ===================================================================== *)
(** ** The host: console poll, standard streams, files                    *)
(* ===================================================================== *)

(** What the process does to the outside world, oldest event first. *)
Inductive event : Type :=
  | EvCheckKey (pending : bool)          (* check_key() and its answer *)
  | EvGetchar (c : Z)                    (* getchar() and its result *)
  | EvPutc (byte : Z)                    (* putc(c, stdout) *)
  | EvFlush                              (* fflush(stdout) *)
  | EvPrint (s : string)                 (* printf / puts, text written *)
  | EvFopen (path : string) (ok : bool)  (* fopen(path, "rb") *)
  | EvSignal                             (* signal(SIGINT, handle_interrupt) *)
  | EvRawMode                            (* disable_input_buffering() *)
  | EvRestoreMode.                       (* restore_input_buffering() *)

(** The host is scripted: [kbhit] holds the answers of the coming console
    polls (no key once the script is over), [stdin] the characters still
    to be read (end of file once it is empty), [files] the files that can
    be opened, each with its bytes. *)
Record host : Type := mkHost {
  kbhit : list bool;
  stdin : list Z;
  files : list (string * list Z);
  trace : list event
}.

Definition log (e : event) (h : host) : host :=
  mkHost (kbhit h) (stdin h) (files h) (trace h ++ [e]).

(* ===================================================================== *)
(** ** Machine state and the monad of the program                         *)
(* ===================================================================== *)

(** [uint16_t memory[UINT16_MAX]; uint16_t registers[R_COUNT];] *)
Record machine : Type := mkMachine {
  memory : list Z;
  registers : list Z;
  world : host
}.

Inductive result (A : Type) : Type :=
  | Ok (a : A) (m : machine)       (* normal completion *)
  | Exit (code : Z) (m : machine)  (* exit(code) *)
  | Abort (m : machine)            (* abort() *)
  | Spin (m : machine)             (* the loop is still running *)
  | Undefined.                     (* array indexed outside its bounds *)
Arguments Ok {A} a m.
Arguments Exit {A} code m.
Arguments Abort {A} m.
Arguments Spin {A} m.
Arguments Undefined {A}.

Definition M (A : Type) : Type := machine -> result A.

#[export] Instance M_ret : MRet M := fun A a m => Ok a m.

#[export] Instance M_bind : MBind M := fun A B f c m =>
  match c m with
  | Ok a m' => f a m'
  | Exit code m' => Exit code m'
  | Abort m' => Abort m'
  | Spin m' => Spin m'
  | Undefined => Undefined
  end.

Definition exit {A} (code : Z) : M A := fun m => Exit code m.
Definition abort {A} : M A := fun m => Abort m.
Definition undefined {A} : M A := fun _ => Undefined.

(** The machine with its host replaced by [f] of it. *)
Definition on_world (f : host -> host) (m : machine) : machine :=
  mkMachine (memory m) (registers m) (f (world m)).

Definition with_world (f : host -> host) : M unit :=
  fun m => Ok tt (on_world f m).

(** *** Array accesses

    Every index the program uses is a [uint16_t] value, so none is
    negative; an index at or past the end of the array is undefined. *)

(** [registers[r]] *)
Definition get_reg (r : Z) : M Z := fun m =>
  match registers m !! Z.to_nat r with
  | Some v => Ok v m
  | None => Undefined
  end.

(** [registers[r] = v], the value converted to [uint16_t]. *)
Definition set_reg (r v : Z) : M unit := fun m =>
  if (Z.to_nat r <? length (registers m))%nat
  then Ok tt (mkMachine (memory m) (<[Z.to_nat r := wrap16 v]> (registers m)) (world m))
  else Undefined.

(** [memory[a]] *)
Definition mem_get (a : Z) : M Z := fun m =>
  match memory m !! Z.to_nat a with
  | Some v => Ok v m
  | None => Undefined
  end.

(** [memory[a] = v], the value converted to [uint16_t]. *)
Definition mem_set (a v : Z) : M unit := fun m =>
  if (Z.to_nat a <? length (memory m))%nat
  then Ok tt (mkMachine (<[Z.to_nat a := wrap16 v]> (memory m)) (registers m) (world m))
  else Undefined.

(** *** Host calls *)

(** The answer of the next console poll and the host after it. *)
Definition pending (h : host) : bool :=
  match kbhit h with b :: _ => b | [] => false end.

Definition polled (h : host) : host :=
  log (EvCheckKey (pending h)) (mkHost (tail (kbhit h)) (stdin h) (files h) (trace h)).

(** The result of the next [getchar()] and the host after it. *)
Definition next_char (h : host) : Z :=
  match stdin h with c :: _ => to_uchar c | [] => EOF end.

Definition consumed (h : host) : host :=
  log (EvGetchar (next_char h)) (mkHost (kbhit h) (tail (stdin h)) (files h) (trace h)).

(** [WaitForSingleObject(hStdin, 1000) == WAIT_OBJECT_0 && _kbhit()] *)
Definition check_key : M bool := fun m =>
  Ok (pending (world m)) (on_world polled m).

Definition getchar : M Z := fun m =>
  Ok (next_char (world m)) (on_world consumed m).

Definition putc (c : Z) : M unit := with_world (log (EvPutc (to_uchar c))).
Definition fflush : M unit := with_world (log EvFlush).
Definition printf (s : string) : M unit := with_world (log (EvPrint s)).

Definition lookup_file (path : string) (fs : list (string * list Z)) : option (list Z) :=
  snd <$> find (fun e => String.eqb (fst e) path) fs.

Definition fopen (path : string) : M (option (list Z)) := fun m =>
  let f := lookup_file path (files (world m)) in
  Ok f (on_world (log (EvFopen path (bool_decide (is_Some f)))) m).

(* ===================================================================== *)
(** ** Memory access with the memory-mapped keyboard                      *)
(* ===================================================================== *)

(** [void mem_write(uint16_t address, uint16_t val)] *)
Definition mem_write (address val : Z) : M unit :=
  mem_set (wrap16 address) (wrap16 val).

(** [uint16_t mem_read(uint16_t addr)]: a read of the keyboard-status
    address polls the console first. *)
Definition mem_read (addr : Z) : M Z :=
  let addr := wrap16 addr in
  (if addr =? MR_KBSR then
     pending ← check_key;
     if pending : bool then
       mem_set MR_KBSR (Z.shiftl 1 15);;
       c ← getchar;
       mem_set MR_KBDR c
     else
       mem_set MR_KBSR 0
   else mret tt);;
  mem_get addr.

(** [void updateFlgs(uint16_t r)] *)
Definition updateFlgs (r : Z) : M unit :=
  let r := wrap16 r in
  v ← get_reg r;
  if v =? 0 then set_reg R_COND FL_ZRO
  else if negb (Z.shiftr v 15 =? 0) then set_reg R_COND FL_NEG
  else set_reg R_COND FL_POS.

(* ===================================================================== *)
(** ** The opcode handlers, one per case of the switch in main            *)
(* ===================================================================== *)

Definition exec_ADD (instr : Z) : M unit :=
  let r0 := Z.land (Z.shiftr instr 9) 0x7 in
  let r1 := Z.land (Z.shiftr instr 6) 0x7 in
  let imm_flag := Z.land (Z.shiftr instr 5) 0x1 in
  (if negb (imm_flag =? 0) then
     let imm5 := signExtend (Z.land instr 0x1F) 5 in
     a ← get_reg r1;
     set_reg r0 (a + imm5)
   else
     let r2 := Z.land instr 0x7 in
     a ← get_reg r1;
     b ← get_reg r2;
     set_reg r0 (a + b));;
  updateFlgs r0.

Definition exec_AND (instr : Z) : M unit :=
  let r0 := Z.land (Z.shiftr instr 9) 0x7 in
  let r1 := Z.land (Z.shiftr instr 6) 0x7 in
  let imm_flag := Z.land (Z.shiftr instr 5) 0x1 in
  (if negb (imm_flag =? 0) then
     let imm5 := signExtend (Z.land instr 0x1F) 5 in
     a ← get_reg r1;
     set_reg r0 (Z.land a imm5)
   else
     let r2 := Z.land instr 0x7 in
     a ← get_reg r1;
     b ← get_reg r2;
     set_reg r0 (Z.land a b));;
  updateFlgs r0.

Definition exec_NOT (instr : Z) : M unit :=
  let r0 := Z.land (Z.shiftr instr 9) 0x7 in
  let r1 := Z.land (Z.shiftr instr 6) 0x7 in
  a ← get_reg r1;
  set_reg r0 (Z.lnot a);;
  updateFlgs r0.

Definition exec_BR (instr : Z) : M unit :=
  let pcOffset := signExtend (Z.land instr 0x1FF) 9 in
  let condFlag := Z.land (Z.shiftr instr 9) 0x7 in
  cond ← get_reg R_COND;
  if negb (Z.land condFlag cond =? 0) then
    pc ← get_reg R_PC;
    set_reg R_PC (pc + pcOffset)
  else mret tt.

Definition exec_JMP (instr : Z) : M unit :=
  let r1 := Z.land (Z.shiftr instr 6) 0x7 in
  a ← get_reg r1;
  set_reg R_PC a.

Definition exec_JSR (instr : Z) : M unit :=
  let longFlag := Z.land (Z.shiftr instr 11) 1 in
  pc ← get_reg R_PC;
  set_reg R_R7 pc;;
  if negb (longFlag =? 0) then
    let longPcOffset := signExtend (Z.land instr 0x7FF) 11 in
    pc ← get_reg R_PC;
    set_reg R_PC (pc + longPcOffset)
  else
    let r1 := Z.land (Z.shiftr instr 6) 0x7 in
    pc ← get_reg R_PC;
    a ← get_reg r1;
    set_reg R_PC (pc + a).

Definition exec_LD (instr : Z) : M unit :=
  let r0 := Z.land (Z.shiftr instr 9) 0x7 in
  let pcOffset := signExtend (Z.land instr 0x1FF) 9 in
  pc ← get_reg R_PC;
  v ← mem_read (pc + pcOffset);
  set_reg r0 v;;
  updateFlgs r0.

Definition exec_LDI (instr : Z) : M unit :=
  let r0 := Z.land (Z.shiftr instr 9) 0x7 in
  let pcOffset := signExtend (Z.land instr 0x1FF) 9 in
  pc ← get_reg R_PC;
  p ← mem_read (pc + pcOffset);
  v ← mem_read p;
  set_reg r0 v;;
  updateFlgs r0.

Definition exec_LDR (instr : Z) : M unit :=
  let r0 := Z.land (Z.shiftr instr 9) 0x7 in
  let r1 := Z.land (Z.shiftr instr 6) 0x7 in
  let offset := signExtend (Z.land instr 0x3F) 6 in
  base ← get_reg r1;
  v ← mem_read (base + offset);
  set_reg r0 v;;
  updateFlgs r0.

Definition exec_LEA (instr : Z) : M unit :=
  let r0 := Z.land (Z.shiftr instr 9) 0x7 in
  let pcOffset := signExtend (Z.land instr 0x1FF) 9 in
  pc ← get_reg R_PC;
  set_reg r0 (pc + pcOffset);;
  updateFlgs r0.

Definition exec_ST (instr : Z) : M unit :=
  let r0 := Z.land (Z.shiftr instr 9) 0x7 in
  let pcOffset := signExtend (Z.land instr 0x1FF) 9 in
  pc ← get_reg R_PC;
  v ← get_reg r0;
  mem_write (pc + pcOffset) v.

(** The handler decodes [r0] from bits 11:9 and then stores
    [registers[0]]. *)
Definition exec_STI (instr : Z) : M unit :=
  let r0 := Z.land (Z.shiftr instr 9) 0x7 in
  let pcOffset := signExtend (Z.land instr 0x1FF) 9 in
  pc ← get_reg R_PC;
  p ← mem_read (pc + pcOffset);
  v ← get_reg 0;
  mem_write p v.

Definition exec_STR (instr : Z) : M unit :=
  let r0 := Z.land (Z.shiftr instr 9) 0x7 in
  let r1 := Z.land (Z.shiftr instr 6) 0x7 in
  let offset := signExtend (Z.land instr 0x3F) 6 in
  base ← get_reg r1;
  v ← get_reg r0;
  mem_write (base + offset) v.

(* ===================================================================== *)
(** ** Trap routines                                                      *)
(* ===================================================================== *)

(** [uint16_t* c = memory + registers[R_R0]; while ( *c ) { putc((char) *c, stdout); ++c; }]
    The pointer [c] is the part of the array from index R0 on; nothing in
    the loop writes to memory, so the cells it meets are those of the
    array when the loop starts.  Leaving the array is undefined. *)
Fixpoint puts_loop (c : list Z) : M unit :=
  match c with
  | [] => undefined
  | w :: c' =>
      if negb (w =? 0) then putc (to_char w);; puts_loop c'
      else mret tt
  end.

(** [char char1 = ( *c ) & 0xFF; putc(char1, stdout);
     char char2 = ( *c ) >> 8; if (char2) putc(char2, stdout); ++c;] *)
Fixpoint putsp_loop (c : list Z) : M unit :=
  match c with
  | [] => undefined
  | w :: c' =>
      if negb (w =? 0) then
        let char1 := to_char (Z.land w 0xFF) in
        putc char1;;
        let char2 := to_char (Z.shiftr w 8) in
        (if negb (char2 =? 0) then putc char2 else mret tt);;
        putsp_loop c'
      else mret tt
  end.

Definition newline : string := String (Ascii.ascii_of_nat 10) EmptyString.

(** The inner switch on [instr & 0xFF].  It has no default case; the
    value returned is the loop variable [running] after the case. *)
Definition exec_TRAP (instr : Z) : M bool :=
  let vect := Z.land instr 0xFF in
  if vect =? TRAP_GETC then
    c ← getchar;
    set_reg R_R0 c;;
    mret true
  else if vect =? TRAP_OUT then
    r ← get_reg R_R0;
    putc (to_char r);;
    fflush;;
    mret true
  else if vect =? TRAP_PUTS then
    r ← get_reg R_R0;
    (fun m => puts_loop (drop (Z.to_nat r) (memory m)) m);;
    fflush;;
    mret true
  else if vect =? TRAP_IN then
    printf " ";;
    x ← getchar;
    let c := to_char x in
    putc c;;
    set_reg R_R0 c;;
    mret true
  else if vect =? TRAP_PUTSP then
    r ← get_reg R_R0;
    (fun m => putsp_loop (drop (Z.to_nat r) (memory m)) m);;
    fflush;;
    mret true
  else if vect =? TRAP_HALT then
    printf ("Done!" ++ newline);;
    fflush;;
    mret false
  else
    mret true.

(* ===================================================================== *)
(** ** Fetch, dispatch and the run loop                                   *)
(* ===================================================================== *)

(** The outer switch on [op = instr >> 12]; the result is [running]. *)
Definition execute (instr : Z) : M bool :=
  let op := Z.shiftr instr 12 in
  if op =? OP_ADD then exec_ADD instr;; mret true
  else if op =? OP_AND then exec_AND instr;; mret true
  else if op =? OP_NOT then exec_NOT instr;; mret true
  else if op =? OP_BR then exec_BR instr;; mret true
  else if op =? OP_JMP then exec_JMP instr;; mret true
  else if op =? OP_JSR then exec_JSR instr;; mret true
  else if op =? OP_LD then exec_LD instr;; mret true
  else if op =? OP_LDI then exec_LDI instr;; mret true
  else if op =? OP_LDR then exec_LDR instr;; mret true
  else if op =? OP_LEA then exec_LEA instr;; mret true
  else if op =? OP_ST then exec_ST instr;; mret true
  else if op =? OP_STI then exec_STI instr;; mret true
  else if op =? OP_STR then exec_STR instr;; mret true
  else if op =? OP_TRAP then exec_TRAP instr
  else if op =? OP_RES then abort
  else if op =? OP_RTI then abort
  else abort.

(** [uint16_t instr = mem_read(registers[R_PC]++);] *)
Definition fetch : M Z :=
  pc ← get_reg R_PC;
  set_reg R_PC (pc + 1);;
  mem_read pc.

(** One turn of [while (running)]. *)
Definition cycle : M bool :=
  instr ← fetch;
  execute instr.

(** [while (running) { ... }], cut after [fuel] turns. *)
Fixpoint run (fuel : nat) : M unit :=
  match fuel with
  | O => fun m => Spin m
  | S fuel' =>
      running ← cycle;
      if running : bool then run fuel' else mret tt
  end.

(* ===================================================================== *)
(** ** Loading images and main                                            *)
(* ===================================================================== *)

(** [fread(p, sizeof(uint16_t), maxRead, f)] on a little-endian host: each
    complete pair of bytes is stored as one native word, and the result
    is the number of complete words.  When the file ends on an odd byte
    and the buffer has room left, the C library still copies that byte:
    it lands in the low byte of the next cell, whose high byte stays, and
    it is not counted (the C standard calls the value of such a partly
    read element indeterminate). *)
Fixpoint fread_words (p : Z) (maxRead : nat) (bytes : list Z) : M nat :=
  match maxRead, bytes with
  | S n, lo :: hi :: rest =>
      mem_set p (to_uchar lo + 256 * to_uchar hi);;
      k ← fread_words (p + 1) n rest;
      mret (S k)
  | S n, [lo] =>
      w ← mem_get p;
      mem_set p (Z.land w 0xFF00 + to_uchar lo);;
      mret O
  | _, _ => mret O
  end.

(** [while (read-- > 0) { *p = swap16( *p ); ++p; }] *)
Fixpoint swap_loop (p : Z) (read : nat) : M unit :=
  match read with
  | O => mret tt
  | S n =>
      w ← mem_get p;
      mem_set p (swap16 w);;
      swap_loop (p + 1) n
  end.

(** [void readImageFile(FILE* f)].  When the file is too short to hold
    the origin, [origin] keeps whatever it held; the second [fread] is
    then at the end of the file and reads nothing, so [read] is 0, the
    loop does not run and no cell is written, whatever [origin] is. *)
Definition readImageFile (f : list Z) : M unit :=
  match f with
  | lo :: hi :: rest =>
      let origin := swap16 (to_uchar lo + 256 * to_uchar hi) in
      let maxRead := wrap16 (UINT16_MAX - origin) in
      let p := origin in
      read ← fread_words p (Z.to_nat maxRead) rest;
      swap_loop p read
  | _ => mret tt
  end.

(** [int readImage(const char* imagePath)] *)
Definition readImage (imagePath : string) : M Z :=
  file ← fopen imagePath;
  match file with
  | None => mret 0
  | Some f => readImageFile f;; mret 1
  end.

(** The text of [printf("Failed to load image: %s\n", argv[j])]. *)
Definition failure_message (path : string) : string :=
  ("Failed to load image: " ++ path ++ newline)%string.

(** [for (int j = 1; j < argc; ++j) { if (!readImage(argv[j])) { printf(...); exit(1); } }]
    over the arguments from [argv[1]] on. *)
Fixpoint load_images (paths : list string) : M unit :=
  match paths with
  | [] => mret tt
  | path :: rest =>
      ok ← readImage path;
      if ok =? 0 then
        printf (failure_message path);;
        exit 1
      else load_images rest
  end.

Definition signal : M unit := with_world (log EvSignal).
Definition disable_input_buffering : M unit := with_world (log EvRawMode).
Definition restore_input_buffering : M unit := with_world (log EvRestoreMode).

(** [int main(int argc, char const *argv[])]; [argv] starts with the
    program's name.  The interrupt handler runs only on SIGINT, which the
    scripted host never raises. *)
Definition main (fuel : nat) (argv : list string) : M Z :=
  let argc := Z.of_nat (length argv) in
  (if argc <? 2 then
     printf ("main.exe <image-file1> ... " ++ newline);;
     exit 2
   else mret tt);;
  load_images (tail argv);;
  signal;;
  disable_input_buffering;;
  set_reg R_PC PC_START;;
  run fuel;;
  restore_input_buffering;;
  mret 0.

(* ===================================================================== *)
(** ** Initial and well-formed states                                     *)
(* ===================================================================== *)

(** Both arrays are globals, hence zero at start. *)
Definition boot (h : host) : machine :=
  mkMachine (replicate (Z.to_nat UINT16_MAX) 0) (replicate (Z.to_nat R_COUNT) 0) h.

Definition is_word (v : Z) : bool := (0 <=? v) && (v <? 65536).

(** The arrays have their declared sizes and hold 16-bit values. *)
Definition wfb (m : machine) : bool :=
  (Z.of_nat (length (memory m)) =? UINT16_MAX)
  && (Z.of_nat (length (registers m)) =? R_COUNT)
  && forallb is_word (registers m)
  && forallb is_word (memory m).

Definition wf (m : machine) : Prop := wfb m = true.

(** A host with nothing typed, nothing to read and no file. *)
Definition quiet : host := mkHost [] [] [] [].

(** A machine with one cell or one register replaced, and the readers
    that go with them. *)
Definition poke (a v : Z) (m : machine) : machine :=
  mkMachine (<[Z.to_nat a := v]> (memory m)) (registers m) (world m).

Definition setr (r v : Z) (m : machine) : machine :=
  mkMachine (memory m) (<[Z.to_nat r := v]> (registers m)) (world m).

Definition reg (r : Z) (m : machine) : Z := default 0 (registers m !! Z.to_nat r).
Definition cell (a : Z) (m : machine) : option Z := memory m !! Z.to_nat a.

(** *** States and hosts used in the examples *)

(** A host with one key waiting at the console, the letter a. *)
Definition keyed : host := mkHost [true] [97] [] [].

(** STI R1, #0 at 0x3000; the word after it points to 0x4000;
    R0 = 0xAAAA, R1 = 0x5555. *)
Definition sti_state : machine :=
  setr R_PC 0x3000 (setr R_R0 0xAAAA (setr R_R1 0x5555
    (poke 0x3000 0xB200 (poke 0x3001 0x4000 (boot quiet))))).

(** JSRR R1 at 0x3000 with R1 = 0x5000. *)
Definition jsrr_state : machine :=
  setr R_PC 0x3000 (setr R_R1 0x5000 (poke 0x3000 0x4040 (boot quiet))).

(** TRAP 0xFF at 0x3000, then HALT. *)
Definition bad_trap_state : machine :=
  setr R_PC 0x3000 (poke 0x3000 0xF0FF (poke 0x3001 0xF025 (boot quiet))).

(** The letters h, i and ! in the cells 0xFDFF, 0xFE00 and 0xFE01, a zero
    after them, R0 on the first, and a key waiting. *)
Definition banner_state : machine :=
  setr R_R0 0xFDFF
    (poke 0xFDFF 104 (poke 0xFE00 105 (poke 0xFE01 33 (boot keyed)))).

(** The same letters packed two to a word, from 0xFDFF on. *)
Definition packed_state : machine :=
  setr R_R0 0xFDFF
    (poke 0xFDFF 0x6968 (poke 0xFE00 0x0021 (boot keyed))).

(** A host with three image files, one of them of a single byte. *)
Definition short_image : host :=
  mkHost [] []
    [("ok.obj", [0x30; 0x00; 0xF0; 0x25]); ("stub.obj", [0x30]);
     ("later.obj", [0x30; 0x00])]%string [].

(** A host with two image files. *)
Definition one_image : host :=
  mkHost [] [] [("ok.obj", [0x30; 0x00; 0xF0; 0x25]); ("later.obj", [0x30; 0x00])]%string [].

(* ===================================================================== *)
(** ** Vocabulary of the properties                                       *)
(* ===================================================================== *)

(** The value of a [w]-bit field read as a two's-complement number. *)
Definition field_value (f w : Z) : Z :=
  if Z.testbit f (w - 1) then f - 2 ^ w else f.

(** The flag that describes a 16-bit value. *)
Definition flag_of (v : Z) : Z :=
  if v =? 0 then FL_ZRO
  else if Z.testbit v 15 then FL_NEG
  else FL_POS.

(** The condition-flags register holds one of the three flags, and the
    one that describes register [dr]. *)
Definition flags_describe (dr : Z) (m : machine) : Prop :=
  (reg R_COND m = FL_POS \/ reg R_COND m = FL_ZRO \/ reg R_COND m = FL_NEG)
  /\ (reg dr m = 0 -> reg R_COND m = FL_ZRO)
  /\ (Z.testbit (reg dr m) 15 = true -> reg R_COND m = FL_NEG)
  /\ (reg dr m <> 0 -> Z.testbit (reg dr m) 15 = false -> reg R_COND m = FL_POS).

(** Opcodes whose handler writes a general-purpose register. *)
Definition writes_register (op : Z) : bool :=
  bool_decide (op ∈ [OP_ADD; OP_AND; OP_NOT; OP_LD; OP_LDI; OP_LDR; OP_LEA]).

(** Opcodes whose handler reads memory on the way. *)
Definition is_load (op : Z) : bool :=
  bool_decide (op ∈ [OP_LD; OP_LDI; OP_LDR]).

(** The address a load reads first: BaseR + offset6 for LDR, PC + offset9
    for LD and LDI. *)
Definition load_address (instr : Z) (m : machine) : Z :=
  if Z.shiftr instr 12 =? OP_LDR
  then wrap16 (reg (Z.land (Z.shiftr instr 6) 0x7) m + signExtend (Z.land instr 0x3F) 6)
  else wrap16 (reg R_PC m + signExtend (Z.land instr 0x1FF) 9).

(** The instruction is a load that reads the address 0xFFFF, which the
    array does not have: at once, or, for LDI, through the pointer it
    has read. *)
Definition load_leaves_memory (instr : Z) (m : machine) : Prop :=
  is_load (Z.shiftr instr 12) = true
  /\ (load_address instr m = 65535
      \/ (Z.shiftr instr 12 = OP_LDI
          /\ exists p m1, mem_read (load_address instr m) m = Ok p m1 /\ wrap16 p = 65535)).

(** [outcome r U Q]: the computation returned a value and a machine that
    satisfy [Q], or it left an array and [U] holds; it did not stop the
    process and did not spin. *)
Definition outcome {A} (r : result A) (U : Prop) (Q : A -> machine -> Prop) : Prop :=
  match r with
  | Ok a m' => Q a m'
  | Undefined => U
  | _ => False
  end.

(** The host after further events; [log e] is [emit [e]]. *)
Definition emit (evs : list event) (h : host) : host :=
  mkHost (kbhit h) (stdin h) (files h) (trace h ++ evs).

(** The bytes PUTSP writes for one word: the low byte, then the high byte
    when it is not zero. *)
Definition packed_bytes (w : Z) : list Z :=
  w mod 256 ::
  (if Z.shiftr w 8 mod 256 =? 0 then [] else [Z.shiftr w 8 mod 256]).

(** [m'] is [m] after the output events [evs] and nothing else: same
    memory, same registers, same pending keys and input. *)
Definition only_output (m m' : machine) (evs : list event) : Prop :=
  memory m' = memory m
  /\ registers m' = registers m
  /\ kbhit (world m') = kbhit (world m)
  /\ stdin (world m') = stdin (world m)
  /\ trace (world m') = trace (world m) ++ evs.

(** [m'] differs from [m] in the contents of memory only. *)
Definition same_but_memory (m m' : machine) : Prop :=
  length (memory m') = length (memory m)
  /\ registers m' = registers m
  /\ world m' = world m.

(** What a test observes of a computation that returned. *)
Definition after {A B} (r : result A) (obs : machine -> B) : option (A * B) :=
  match r with
  | Ok a m' => Some (a, obs m')
  | _ => None
  end.

(** The defined trap vectors. *)
Definition known_vector (v : Z) : bool :=
  bool_decide (v ∈ [TRAP_GETC; TRAP_OUT; TRAP_PUTS; TRAP_IN; TRAP_PUTSP; TRAP_HALT]).

(** The paths given to [fopen] in a trace, in order. *)
Definition paths_tried (t : list event) : list string :=
  omap (fun e => match e with EvFopen p _ => Some p | _ => None end) t.

(** The batch reading of the loading loop at one command line and host:
    when the process exits, every path given was tried. *)
Definition every_path_tried (argv : list string) (h : host) : Prop :=
  forall fuel code m',
    main fuel argv (boot h) = Exit code m' ->
    forall p, p ∈ tail argv -> p ∈ paths_tried (trace (world m')).

(** *** The interrupt handler *)

(** [void handle_interrupt(int sgnal)], the handler main installs for
    SIGINT: it restores the terminal mode, ends the line and exits. *)
Definition handle_interrupt {A} : M A :=
  restore_input_buffering;;
  printf newline;;
  exit (-2).

(** *** Vocabulary of the further properties *)

(** [m'] has the registers of [m] but for register [dr] and the flags. *)
Definition same_registers_but (dr : Z) (m m' : machine) : Prop :=
  forall r, 0 <= r -> r <> dr -> r <> R_COND -> reg r m' = reg r m.

(** The second operand of ADD and AND: the sign-extended 5-bit field when
    bit 5 is set, register SR2 otherwise. *)
Definition operand2 (instr : Z) (m : machine) : Z :=
  if Z.testbit instr 5
  then signExtend (Z.land instr 0x1F) 5
  else reg (Z.land instr 0x7) m.

(** [m1] is [m] with the word [v] stored at [a]. *)
Definition stored_at (a v : Z) (m m1 : machine) : Prop :=
  cell a m1 = Some v
  /\ (forall b, 0 <= b -> b <> a -> cell b m1 = cell b m)
  /\ registers m1 = registers m
  /\ world m1 = world m.

(** [m'] is [m] with R0 replaced by [v]. *)
Definition only_R0 (v : Z) (m m' : machine) : Prop :=
  reg R_R0 m' = v
  /\ (forall r, 0 < r -> reg r m' = reg r m)
  /\ memory m' = memory m.

(** The words of a byte sequence, two bytes to a word; a last odd byte
    makes no word. *)
Fixpoint words_of (f : Z -> Z -> Z) (bytes : list Z) : list Z :=
  match bytes with
  | b0 :: b1 :: rest => f b0 b1 :: words_of f rest
  | _ => []
  end.

(** First byte low, as the host stores them, and first byte high, as the
    image file has them. *)
Definition le_words : list Z -> list Z := words_of (fun b0 b1 => b0 + 256 * b1).
Definition be_words : list Z -> list Z := words_of (fun b0 b1 => 256 * b0 + b1).

Definition is_byte (b : Z) : Prop := 0 <= b < 256.

(** The last byte of a byte sequence of odd length, the one that belongs
    to no word. *)
Definition trailing_byte (bytes : list Z) : option Z :=
  if Nat.odd (length bytes) then last bytes else None.

(** What a cell holds once the read has copied a trailing odd byte into
    it, when the file ends before the [n] words that fit are read: the
    byte in the low half, the high half as before. *)
Definition partly_read (n : nat) (bytes : list Z) (c : option Z) : option Z :=
  match trailing_byte bytes with
  | Some b =>
      if (length (be_words bytes) <? n)%nat
      then (fun w => Z.land w 0xFF00 + b) <$> c
      else c
  | None => c
  end.

(** The flags register holds 0, as at boot, or one of the three flags. *)
Definition flags_valid (m : machine) : Prop :=
  reg R_COND m = 0 \/ reg R_COND m = FL_POS
  \/ reg R_COND m = FL_ZRO \/ reg R_COND m = FL_NEG.

Definition sound (m : machine) : Prop := wf m /\ flags_valid m.

(** [keeps P c]: however [c] ends, short of leaving an array, the machine
    it ends with satisfies [P] when the one it starts from does. *)
Definition keeps {A} (P : machine -> Prop) (c : M A) : Prop :=
  forall m, P m ->
    match c m with
    | Ok _ m' | Exit _ m' | Abort m' | Spin m' => P m'
    | Undefined => True
    end.

(** Opcodes that work on registers alone. *)
Definition register_only (op : Z) : bool :=
  bool_decide (op ∈ [OP_ADD; OP_AND; OP_NOT; OP_LEA; OP_BR; OP_JMP; OP_JSR]).

(** [m'] has the memory of [m] and its registers but for R0. *)
Definition same_but_R0 (m m' : machine) : Prop :=
  memory m' = memory m /\ forall r, 0 < r -> reg r m' = reg r m.

(** How main ends once the images are loaded and the loop has run from
    [start]: the terminal mode is restored and 0 returned when the loop
    ends by itself, and only then. *)
Definition finish (r : result unit) : result Z :=
  match r with
  | Ok _ m' => Ok 0 (on_world (emit [EvRestoreMode]) m')
  | Exit code m' => Exit code m'
  | Abort m' => Abort m'
  | Spin m' => Spin m'
  | Undefined => Undefined
  end.

(** *** Further states and hosts used in the examples *)

(** The boot state about to run the instruction after 0x3000. *)
Definition at_3001 : machine := setr R_PC 0x3001 (boot quiet).

(** R1 = 0x7FFF, the largest positive word. *)
Definition add_state : machine := setr R_R1 0x7FFF (boot quiet).

(** Flags ZERO, as after a result of 0. *)
Definition zero_flag_state : machine := setr R_COND FL_ZRO at_3001.

(** R1 = 0x1234, to be stored five words ahead. *)
Definition store_state : machine := setr R_R1 0x1234 at_3001.

(** R1 = 0xBEEF to be stored at R2 + 3 with R2 = 0x4000. *)
Definition base_state : machine := setr R_R1 0xBEEF (setr R_R2 0x4000 (boot quiet)).

(** The cell five words ahead points to 0x4000, which holds 0x00FF. *)
Definition pointer_state : machine := poke 0x3006 0x4000 (poke 0x4000 0x00FF at_3001).

(** R0 = 0x0141: the letter A in the low byte, 1 in the high byte. *)
Definition out_state : machine := setr R_R0 0x0141 (boot quiet).

(** One character waiting on the input, above 0x7F. *)
Definition accent : host := mkHost [] [0xE9] [] [].

(** HALT, and the reserved opcode RTI, at the start address. *)
Definition halt_state : machine := setr R_PC 0x3000 (poke 0x3000 0xF025 (boot quiet)).
Definition rti_state : machine := setr R_PC 0x3000 (poke 0x3000 0x8000 (boot quiet)).

(* ===================================================================== *)
(** * Properties                                                          *)
(* ===================================================================== *)

(** ** Well-formed states *)

Lemma wf_parts m :
  wf m ->
  Z.of_nat (length (memory m)) = UINT16_MAX
  /\ length (registers m) = 10%nat
  /\ forallb is_word (registers m) = true
  /\ forallb is_word (memory m) = true.
Proof.
  unfold wf, wfb. rewrite !andb_true_iff, !Z.eqb_eq. unfold R_COUNT.
  intros [[[H1 H2] H3] H4]. repeat split; try assumption. lia.
Qed.

Lemma wf_regs_length m : wf m -> length (registers m) = 10%nat.
Proof. intros H. apply wf_parts in H. tauto. Qed.

Lemma wf_mem_length m : wf m -> Z.of_nat (length (memory m)) = 65535.
Proof. intros H. apply wf_parts in H. tauto. Qed.

Lemma is_word_range v : is_word v = true <-> 0 <= v < 65536.
Proof. unfold is_word. rewrite andb_true_iff, Z.leb_le, Z.ltb_lt. tauto. Qed.

Lemma wf_reg_word m r : wf m -> 0 <= reg r m < 65536.
Proof.
  intros H. apply wf_parts in H. destruct H as (_ & _ & H & _).
  unfold reg. destruct (registers m !! Z.to_nat r) as [v|] eqn:E; [| cbn; lia].
  cbn. apply is_word_range. rewrite forallb_forall in H. apply H.
  apply list_elem_of_In. eapply list_elem_of_lookup_2. exact E.
Qed.

Lemma wrap16_range x : 0 <= wrap16 x < 65536.
Proof. unfold wrap16. apply Z.mod_pos_bound. lia. Qed.

Lemma wrap16_small x : 0 <= x < 65536 -> wrap16 x = x.
Proof. intros H. unfold wrap16. apply Z.mod_small. assumption. Qed.

Lemma reg_field_range x : 0 <= Z.land x 7 < 8.
Proof.
  change 7 with (Z.ones 3). rewrite Z.land_ones by lia.
  change (2 ^ 3) with 8. apply Z.mod_pos_bound. lia.
Qed.

(** ** Equations of the primitive accesses *)

Lemma bind_unfold {A B} (c : M A) (f : A -> M B) m :
  (c ≫= f) m =
  match c m with
  | Ok a m' => f a m'
  | Exit code m' => Exit code m'
  | Abort m' => Abort m'
  | Spin m' => Spin m'
  | Undefined => Undefined
  end.
Proof. reflexivity. Qed.

Lemma bind_Ok {A B} (c : M A) (f : A -> M B) m a m' :
  c m = Ok a m' -> (c ≫= f) m = f a m'.
Proof. intros H. rewrite bind_unfold, H. reflexivity. Qed.

Lemma get_reg_ok m r :
  length (registers m) = 10%nat -> 0 <= r < 10 -> get_reg r m = Ok (reg r m) m.
Proof.
  intros Hl Hr. unfold get_reg, reg.
  destruct (registers m !! Z.to_nat r) eqn:E; [reflexivity |].
  apply lookup_ge_None in E. lia.
Qed.

Lemma set_reg_ok m r v :
  length (registers m) = 10%nat -> 0 <= r < 10 ->
  set_reg r v m = Ok tt (setr r (wrap16 v) m).
Proof.
  intros Hl Hr. unfold set_reg, setr.
  destruct (Nat.ltb_spec (Z.to_nat r) (length (registers m))); [reflexivity | lia].
Qed.

Lemma mem_get_ok m a :
  Z.of_nat (length (memory m)) = 65535 -> 0 <= a < 65535 ->
  exists v, cell a m = Some v /\ mem_get a m = Ok v m.
Proof.
  intros Hl Ha. unfold mem_get, cell.
  destruct (memory m !! Z.to_nat a) eqn:E; [eauto |].
  apply lookup_ge_None in E. lia.
Qed.

Lemma mem_set_ok m a v :
  Z.of_nat (length (memory m)) = 65535 -> 0 <= a < 65535 ->
  mem_set a v m = Ok tt (poke a (wrap16 v) m).
Proof.
  intros Hl Ha. unfold mem_set, poke.
  destruct (Nat.ltb_spec (Z.to_nat a) (length (memory m))); [reflexivity | lia].
Qed.

Lemma reg_setr_eq m r v :
  length (registers m) = 10%nat -> 0 <= r < 10 -> reg r (setr r v m) = v.
Proof.
  intros Hl Hr. unfold reg, setr. cbn [registers].
  rewrite list_lookup_insert_eq by lia. reflexivity.
Qed.

Lemma reg_setr_ne m r r' v :
  0 <= r -> 0 <= r' -> r <> r' -> reg r' (setr r v m) = reg r' m.
Proof.
  intros Hr Hr' Hne. unfold reg, setr. cbn [registers].
  rewrite list_lookup_insert_ne by lia. reflexivity.
Qed.

Lemma regs_length_setr m r v :
  length (registers (setr r v m)) = length (registers m).
Proof. unfold setr. cbn [registers]. apply length_insert. Qed.

(** ** Condition flags *)

Lemma bit15_test v :
  0 <= v < 65536 -> negb (Z.shiftr v 15 =? 0) = Z.testbit v 15.
Proof.
  intros Hv. rewrite Z.shiftr_div_pow2 by lia.
  pose proof (Z.testbit_spec' v 15 ltac:(lia)) as Hb.
  change (2 ^ 15) with 32768 in *.
  assert (0 <= v / 32768 < 2) by (split; [apply Z.div_pos | apply Z.div_lt_upper_bound]; lia).
  rewrite Z.mod_small in Hb by lia.
  destruct (Z.testbit v 15); cbn [Z.b2z] in Hb; rewrite <- Hb; reflexivity.
Qed.

Lemma updateFlgs_ok m r :
  length (registers m) = 10%nat -> 0 <= r < 8 -> 0 <= reg r m < 65536 ->
  updateFlgs r m = Ok tt (setr R_COND (flag_of (reg r m)) m).
Proof.
  intros Hl Hr Hv. unfold updateFlgs.
  rewrite (wrap16_small r) by lia.
  rewrite (bind_Ok _ _ _ _ _ (get_reg_ok m r Hl ltac:(lia))).
  unfold flag_of. rewrite (bit15_test _ Hv).
  destruct (reg r m =? 0); [| destruct (Z.testbit (reg r m) 15)];
    rewrite set_reg_ok by (assumption || (unfold R_COND; lia)); reflexivity.
Qed.

Lemma flag_of_cases v : flag_of v = FL_POS \/ flag_of v = FL_ZRO \/ flag_of v = FL_NEG.
Proof. unfold flag_of. destruct (v =? 0); [| destruct (Z.testbit v 15)]; tauto. Qed.

(** ** Sign extension *)

Lemma sign_bit_test (f w : Z) :
  1 <= w -> Z.land (Z.shiftr f (w - 1)) 1 = Z.b2z (Z.testbit f (w - 1)).
Proof.
  intros Hw. change 1 with (Z.ones 1) at 2.
  rewrite Z.land_ones by lia. rewrite Z.shiftr_div_pow2 by lia.
  change (2 ^ 1) with 2. symmetry. apply Z.testbit_spec'. lia.
Qed.

Lemma field_high_bits (f w n : Z) :
  0 <= f < 2 ^ w -> 0 <= w <= n -> Z.testbit f n = false.
Proof.
  intros Hf Hn. rewrite <- (Z.mod_small f (2 ^ w)) by lia.
  apply Z.mod_pow2_bits_high. lia.
Qed.

Lemma lor_high_fill (f w : Z) :
  0 <= w -> 0 <= f < 2 ^ w ->
  Z.lor f (Z.shiftl 0xFFFF w) = f + 65535 * 2 ^ w.
Proof.
  intros Hw Hf. rewrite <- Z.shiftl_mul_pow2 by lia.
  symmetry. apply Z.add_nocarry_lor.
  apply Z.bits_inj'. intros n Hn.
  rewrite Z.land_spec, Z.bits_0.
  destruct (Z.lt_ge_cases n w) as [Hlt | Hge].
  - rewrite Z.shiftl_spec_low by lia. apply andb_false_r.
  - rewrite (field_high_bits f w n) by lia. reflexivity.
Qed.

Lemma signExtend_neg (f w : Z) :
  1 <= w <= 15 -> 0 <= f < 2 ^ w -> Z.testbit f (w - 1) = true ->
  signExtend f w = f + (65536 - 2 ^ w).
Proof.
  intros Hw Hf Hb. unfold signExtend.
  rewrite sign_bit_test, Hb by lia. cbn [Z.b2z Z.eqb negb Pos.eqb].
  rewrite lor_high_fill by lia. unfold wrap16.
  assert (2 ^ w <= 2 ^ 15) by (apply Z.pow_le_mono_r; lia).
  change (2 ^ 15) with 32768 in *.
  replace (f + 65535 * 2 ^ w) with (f + (65536 - 2 ^ w) + (2 ^ w - 1) * 65536) by lia.
  rewrite Z.mod_add by lia. apply Z.mod_small. lia.
Qed.

Lemma signExtend_pos (f w : Z) :
  1 <= w -> Z.testbit f (w - 1) = false -> signExtend f w = f.
Proof.
  intros Hw Hb. unfold signExtend. rewrite sign_bit_test, Hb by lia. reflexivity.
Qed.

(** The result of [signExtend] on a field is a 16-bit word. *)
Lemma signExtend_word (f w : Z) :
  1 <= w <= 15 -> 0 <= f < 2 ^ w -> 0 <= signExtend f w < 65536.
Proof.
  intros Hw Hf.
  assert (2 ^ w <= 2 ^ 15) by (apply Z.pow_le_mono_r; lia).
  change (2 ^ 15) with 32768 in *.
  destruct (Z.testbit f (w - 1)) eqn:Hb.
  - rewrite signExtend_neg by assumption. lia.
  - rewrite signExtend_pos by (lia || assumption). lia.
Qed.

(** C7. For a width [w] among 5, 6, 9 and 11 and a field [f] below [2^w],
    [signExtend f w] is the 16-bit word of the field's two's-complement
    value: when bit [w-1] of [f] is 1, every bit from [w] to 15 of the
    result is 1 and the lower bits are those of [f]; when it is 0 the
    result is [f] itself. *)
Theorem signExtend_twos_complement (f w : Z) :
  w = 5 \/ w = 6 \/ w = 9 \/ w = 11 ->
  0 <= f < 2 ^ w ->
  signExtend f w = wrap16 (field_value f w)
  /\ (Z.testbit f (w - 1) = true ->
      forall i, 0 <= i < 16 ->
        Z.testbit (signExtend f w) i = if i <? w then Z.testbit f i else true)
  /\ (Z.testbit f (w - 1) = false -> signExtend f w = f).
Proof.
  intros Hw Hf.
  assert (Hr : 1 <= w <= 15) by lia.
  assert (Hp : 2 ^ w <= 2 ^ 15) by (apply Z.pow_le_mono_r; lia).
  change (2 ^ 15) with 32768 in Hp.
  split; [| split].
  - unfold field_value. destruct (Z.testbit f (w - 1)) eqn:Hb.
    + rewrite signExtend_neg by assumption. unfold wrap16.
      replace (f - 2 ^ w) with (f + (65536 - 2 ^ w) + (-1) * 65536) by lia.
      rewrite Z.mod_add by lia. symmetry. apply Z.mod_small. lia.
    + rewrite signExtend_pos by (lia || assumption).
      unfold wrap16. symmetry. apply Z.mod_small. lia.
  - intros Hb i Hi. unfold signExtend.
    rewrite sign_bit_test, Hb by lia. cbn [Z.b2z Z.eqb negb Pos.eqb].
    unfold wrap16. change 65536 with (2 ^ 16).
    rewrite Z.mod_pow2_bits_low by lia.
    rewrite Z.lor_spec.
    destruct (i <? w) eqn:Hiw.
    + apply Z.ltb_lt in Hiw. rewrite Z.shiftl_spec_low by lia. apply orb_false_r.
    + apply Z.ltb_ge in Hiw. rewrite (field_high_bits f w i) by lia.
      rewrite Z.shiftl_spec by lia. cbn [orb].
      change 65535 with (Z.ones 16). apply Z.ones_spec_low. lia.
  - intros Hb. apply signExtend_pos; [lia | assumption].
Qed.

(** The two fields the specification names: 31 (binary 11111) extends to
    0xFFFF and 15 (binary 01111) to 0x000F. *)
Lemma signExtend_twos_complement_witness :
  (signExtend 31 5 = wrap16 (field_value 31 5)
   /\ (Z.testbit 31 (5 - 1) = true ->
       forall i, 0 <= i < 16 ->
         Z.testbit (signExtend 31 5) i = if i <? 5 then Z.testbit 31 i else true)
   /\ (Z.testbit 31 (5 - 1) = false -> signExtend 31 5 = 31))
  /\ signExtend 31 5 = 0xFFFF
  /\ signExtend 15 5 = 0x000F.
Proof.
  split; [| split; reflexivity].
  apply (signExtend_twos_complement 31 5); [left; reflexivity | lia].
Defined.

(** ** Reasoning on outcomes *)

(** A read of memory returns or leaves the array; it changes no register. *)
Lemma mem_read_regs a m :
  outcome (mem_read a m) True (fun _ m' => registers m' = registers m).
Proof.
  unfold mem_read, mbind, M_bind, mret, M_ret, check_key, getchar, mem_set, mem_get.
  repeat case_match; simplify_eq; cbn [outcome registers]; done.
Qed.

Lemma flag_of_describes dr m v :
  length (registers m) = 10%nat -> 0 <= dr < 8 ->
  flags_describe dr (setr R_COND (flag_of v) (setr dr v m)).
Proof.
  intros Hl Hr. unfold flags_describe.
  rewrite reg_setr_eq by (rewrite ?regs_length_setr; unfold R_COND; (assumption || lia)).
  rewrite reg_setr_ne by (unfold R_COND; lia).
  rewrite reg_setr_eq by (assumption || lia).
  split; [apply flag_of_cases |]. unfold flag_of.
  repeat split.
  - intros ->. reflexivity.
  - intros Hb. destruct (Z.eqb_spec v 0) as [-> | _]; [discriminate Hb |].
    rewrite Hb. reflexivity.
  - intros Hv Hb. destruct (Z.eqb_spec v 0); [contradiction |].
    rewrite Hb. reflexivity.
Qed.

(** Storing a value in a general-purpose register and updating the flags
    on it leaves the flags describing that register. *)
Lemma write_back m r0 v (U : Prop) :
  length (registers m) = 10%nat -> 0 <= r0 < 8 ->
  outcome ((set_reg r0 v;; updateFlgs r0) m) U (fun _ m' => flags_describe r0 m').
Proof.
  intros Hl Hr.
  rewrite (bind_Ok _ _ _ _ _ (set_reg_ok m r0 v Hl ltac:(lia))).
  rewrite updateFlgs_ok; rewrite ?regs_length_setr, ?reg_setr_eq by lia;
    first [assumption | apply wrap16_range | idtac].
  cbn [outcome]. apply flag_of_describes; assumption.
Qed.

Ltac reg_index :=
  first [ assumption
        | match goal with |- context [Z.land ?x 7] =>
            pose proof (reg_field_range x); lia end
        | unfold R_PC, R_COND, R_R7, R_R0; lia ].

Lemma exec_ADD_flags instr m :
  length (registers m) = 10%nat ->
  outcome (exec_ADD instr m) False
          (fun _ m' => flags_describe (Z.land (Z.shiftr instr 9) 7) m').
Proof.
  intros Hl. unfold exec_ADD.
  pose proof (reg_field_range (Z.shiftr instr 9)) as Hr0.
  set (r0 := Z.land (Z.shiftr instr 9) 7) in *.
  destruct (negb _);
    repeat progress (rewrite ?bind_unfold, ?get_reg_ok by reg_index; cbv beta iota);
    apply (write_back m r0 _ False Hl Hr0).
Qed.

Ltac straight_line :=
  repeat progress (rewrite ?bind_unfold, ?get_reg_ok by reg_index; cbv beta iota).

Lemma exec_AND_flags instr m :
  length (registers m) = 10%nat ->
  outcome (exec_AND instr m) False
          (fun _ m' => flags_describe (Z.land (Z.shiftr instr 9) 7) m').
Proof.
  intros Hl. unfold exec_AND.
  pose proof (reg_field_range (Z.shiftr instr 9)) as Hr0.
  set (r0 := Z.land (Z.shiftr instr 9) 7) in *.
  destruct (negb _); straight_line; apply (write_back m r0 _ False Hl Hr0).
Qed.

Lemma exec_NOT_flags instr m :
  length (registers m) = 10%nat ->
  outcome (exec_NOT instr m) False
          (fun _ m' => flags_describe (Z.land (Z.shiftr instr 9) 7) m').
Proof.
  intros Hl. unfold exec_NOT.
  pose proof (reg_field_range (Z.shiftr instr 9)) as Hr0.
  set (r0 := Z.land (Z.shiftr instr 9) 7) in *.
  straight_line. apply (write_back m r0 _ False Hl Hr0).
Qed.

Lemma exec_LEA_flags instr m :
  length (registers m) = 10%nat ->
  outcome (exec_LEA instr m) False
          (fun _ m' => flags_describe (Z.land (Z.shiftr instr 9) 7) m').
Proof.
  intros Hl. unfold exec_LEA.
  pose proof (reg_field_range (Z.shiftr instr 9)) as Hr0.
  set (r0 := Z.land (Z.shiftr instr 9) 7) in *.
  straight_line. apply (write_back m r0 _ False Hl Hr0).
Qed.

Ltac dispatch H :=
  unfold execute; rewrite H;
  cbn [Z.eqb Pos.eqb OP_ADD OP_AND OP_NOT OP_LD OP_LDI OP_LDR OP_LEA OP_BR OP_JMP OP_JSR
       OP_ST OP_STI OP_STR OP_TRAP OP_RES OP_RTI].

(** ** Equations of the host calls *)

Lemma with_world_eq f m : with_world f m = Ok tt (on_world f m).
Proof. reflexivity. Qed.
Lemma mret_eq {A} (a : A) m : (mret a : M A) m = Ok a m.
Proof. reflexivity. Qed.
Lemma check_key_eq m : check_key m = Ok (pending (world m)) (on_world polled m).
Proof. reflexivity. Qed.

Lemma getchar_eq m : getchar m = Ok (next_char (world m)) (on_world consumed m).
Proof. reflexivity. Qed.
Lemma emit_emit evs evs' h : emit evs' (emit evs h) = emit (evs ++ evs') h.
Proof. unfold emit. cbn [kbhit stdin files trace]. rewrite <- app_assoc. reflexivity. Qed.

Lemma putc_eq c m : putc c m = Ok tt (on_world (emit [EvPutc (to_uchar c)]) m).
Proof. reflexivity. Qed.

Lemma fflush_eq m : fflush m = Ok tt (on_world (emit [EvFlush]) m).
Proof. reflexivity. Qed.

Lemma printf_eq t m : printf t m = Ok tt (on_world (emit [EvPrint t]) m).
Proof. reflexivity. Qed.

Ltac io_steps :=
  repeat progress
    (rewrite ?bind_unfold, ?check_key_eq, ?getchar_eq, ?putc_eq, ?fflush_eq, ?printf_eq,
       ?with_world_eq, ?mret_eq;
     cbv beta iota zeta).

Lemma on_world_emit evs evs' m :
  on_world (emit evs') (on_world (emit evs) m) = on_world (emit (evs ++ evs')) m.
Proof. unfold on_world. cbn [memory registers world]. rewrite emit_emit. reflexivity. Qed.

Lemma on_world_emit_nil m : on_world (emit []) m = m.
Proof.
  destruct m as [mem regs [k s f t]]. unfold on_world, emit. cbn. rewrite app_nil_r. reflexivity.
Qed.

(** ** The keyboard registers *)

Lemma mem_length_poke a v m : length (memory (poke a v m)) = length (memory m).
Proof. unfold poke. cbn [memory]. apply length_insert. Qed.

Lemma cell_poke_eq a v m :
  Z.of_nat (length (memory m)) = 65535 -> 0 <= a < 65535 ->
  cell a (poke a v m) = Some v.
Proof.
  intros Hl Ha. unfold cell, poke. cbn [memory].
  apply list_lookup_insert_eq. lia.
Qed.

Lemma cell_poke_ne a a' v m :
  0 <= a -> 0 <= a' -> a <> a' -> cell a' (poke a v m) = cell a' m.
Proof.
  intros Ha Ha' Hne. unfold cell, poke. cbn [memory].
  apply list_lookup_insert_ne. lia.
Qed.

Lemma memory_on_world f m : memory (on_world f m) = memory m.
Proof. reflexivity. Qed.

Ltac mem_side :=
  repeat (rewrite mem_length_poke || rewrite memory_on_world);
  first [ assumption | unfold MR_KBSR, MR_KBDR; lia ].

Lemma mem_get_cell a v m : cell a m = Some v -> mem_get a m = Ok v m.
Proof. unfold cell, mem_get. intros ->. reflexivity. Qed.

(** A read of any other address than the keyboard status is a plain array
    read. *)
Lemma mem_read_plain a v m :
  0 <= a < 65536 -> a <> MR_KBSR -> cell a m = Some v -> mem_read a m = Ok v m.
Proof.
  intros Ha Hne Hc. unfold mem_read. rewrite (wrap16_small a Ha).
  destruct (Z.eqb_spec a MR_KBSR); [contradiction |].
  rewrite bind_unfold. cbn [mret M_ret]. apply mem_get_cell. exact Hc.
Qed.

(** The status read when the console reports a key. *)
Lemma status_read_key m :
  Z.of_nat (length (memory m)) = 65535 -> pending (world m) = true ->
  mem_read MR_KBSR m
  = Ok (Z.shiftl 1 15)
       (poke MR_KBDR (wrap16 (next_char (world m)))
          (on_world consumed (poke MR_KBSR (Z.shiftl 1 15) (on_world polled m)))).
Proof.
  intros Hl Hp. unfold mem_read.
  change (wrap16 MR_KBSR) with MR_KBSR. rewrite Z.eqb_refl.
  io_steps. rewrite Hp. io_steps.
  rewrite mem_set_ok by mem_side. io_steps.
  rewrite mem_set_ok by mem_side. cbv beta iota.
  change (wrap16 (Z.shiftl 1 15)) with (Z.shiftl 1 15).
  apply mem_get_cell.
  rewrite cell_poke_ne by mem_side.
  apply cell_poke_eq; mem_side.
Qed.

(** The status read when the console reports no key. *)
Lemma status_read_idle m :
  Z.of_nat (length (memory m)) = 65535 -> pending (world m) = false ->
  mem_read MR_KBSR m = Ok 0 (poke MR_KBSR 0 (on_world polled m)).
Proof.
  intros Hl Hp. unfold mem_read.
  change (wrap16 MR_KBSR) with MR_KBSR. rewrite Z.eqb_refl.
  io_steps. rewrite Hp.
  rewrite mem_set_ok by mem_side. cbv beta iota.
  change (wrap16 0) with 0.
  apply mem_get_cell. apply cell_poke_eq; mem_side.
Qed.

(** C5. A read of the keyboard-status address polls the console.  With a
    key pending it stores 0x8000 (bit 15 set) in the status cell and the
    result of [getchar], the pending character's code, in the data cell,
    and returns 0x8000; a read of the data address right after returns
    that code.  With no key it stores 0 in the status cell and returns 0,
    and so does a second read when still no key is pending. *)
Theorem keyboard_status_read (m : machine) :
  wf m ->
  (pending (world m) = true ->
   exists m',
     mem_read MR_KBSR m = Ok 0x8000 m'
     /\ Z.testbit 0x8000 15 = true
     /\ cell MR_KBSR m' = Some 0x8000
     /\ cell MR_KBDR m' = Some (wrap16 (next_char (world m)))
     /\ mem_read MR_KBDR m' = Ok (wrap16 (next_char (world m))) m'
     /\ (forall c rest, stdin (world m) = c :: rest -> 0 <= c < 256 ->
         wrap16 (next_char (world m)) = c))
  /\ (pending (world m) = false ->
      exists m',
        mem_read MR_KBSR m = Ok 0 m'
        /\ cell MR_KBSR m' = Some 0
        /\ (pending (world m') = false ->
            exists m'', mem_read MR_KBSR m' = Ok 0 m'')).
Proof.
  intros Hwf. apply wf_mem_length in Hwf. split; intros Hp.
  - eexists. split; [apply status_read_key; assumption |].
    assert (Hd : cell MR_KBDR
                   (poke MR_KBDR (wrap16 (next_char (world m)))
                      (on_world consumed (poke MR_KBSR (Z.shiftl 1 15) (on_world polled m))))
                 = Some (wrap16 (next_char (world m)))).
    { apply cell_poke_eq; [| unfold MR_KBDR; lia].
      unfold on_world. cbn [memory]. rewrite mem_length_poke. exact Hwf. }
    split; [reflexivity |]. split; [| split; [exact Hd | split]].
    + rewrite cell_poke_ne by (unfold MR_KBDR, MR_KBSR; lia).
      apply cell_poke_eq; [exact Hwf | unfold MR_KBSR; lia].
    + apply mem_read_plain; [unfold MR_KBDR; lia | unfold MR_KBDR, MR_KBSR; lia | exact Hd].
    + intros c rest Hs Hc. unfold next_char. rewrite Hs.
      unfold to_uchar, wrap16. rewrite (Z.mod_small c 256) by lia.
      apply Z.mod_small. lia.
  - eexists. split; [apply status_read_idle; assumption |].
    split; [apply cell_poke_eq; [exact Hwf | unfold MR_KBSR; lia] |].
    intros Hp'. eexists. apply status_read_idle; [| exact Hp'].
    rewrite mem_length_poke. exact Hwf.
Qed.

(** A key waiting at boot: the status read returns 0x8000 and leaves the
    letter in the data cell; with no key it returns 0. *)
Lemma keyboard_status_read_witness :
  ((pending (world (boot keyed)) = true ->
    exists m',
      mem_read MR_KBSR (boot keyed) = Ok 0x8000 m'
      /\ Z.testbit 0x8000 15 = true
      /\ cell MR_KBSR m' = Some 0x8000
      /\ cell MR_KBDR m' = Some (wrap16 (next_char (world (boot keyed))))
      /\ mem_read MR_KBDR m' = Ok (wrap16 (next_char (world (boot keyed)))) m'
      /\ (forall c rest, stdin (world (boot keyed)) = c :: rest -> 0 <= c < 256 ->
          wrap16 (next_char (world (boot keyed))) = c))
   /\ (pending (world (boot keyed)) = false ->
       exists m',
         mem_read MR_KBSR (boot keyed) = Ok 0 m'
         /\ cell MR_KBSR m' = Some 0
         /\ (pending (world m') = false ->
             exists m'', mem_read MR_KBSR m' = Ok 0 m'')))
  /\ after (mem_read MR_KBSR (boot keyed)) (fun m' => (cell MR_KBSR m', cell MR_KBDR m'))
     = Some (0x8000, (Some 0x8000, Some 97))
  /\ after (mem_read MR_KBSR (boot quiet)) (cell MR_KBSR) = Some (0, Some 0).
Proof.
  split; [| split; vm_compute; reflexivity].
  apply (keyboard_status_read (boot keyed)). vm_compute. reflexivity.
Defined.

(** ** Output traps *)

Lemma uchar_of_char x : to_uchar (to_char x) = x mod 256.
Proof.
  unfold to_uchar, to_char.
  pose proof (Z.div_mod (x + 128) 256 ltac:(lia)).
  pose proof (Z.mod_pos_bound (x + 128) 256 ltac:(lia)).
  replace ((x + 128) mod 256 - 128) with (x + (- ((x + 128) / 256)) * 256) by lia.
  apply Z.mod_add. lia.
Qed.

Lemma char_is_zero x : (to_char x =? 0) = (x mod 256 =? 0).
Proof.
  rewrite <- uchar_of_char. unfold to_uchar.
  pose proof (Z.mod_pos_bound (x + 128) 256 ltac:(lia)) as Hb.
  unfold to_char in *.
  destruct (Z.eqb_spec ((x + 128) mod 256 - 128) 0) as [-> | Hne].
  - reflexivity.
  - symmetry. apply Z.eqb_neq. intros H.
    destruct (Z_lt_le_dec ((x + 128) mod 256 - 128) 0).
    + replace ((x + 128) mod 256 - 128) with (((x + 128) mod 256 + 128) + (-1) * 256) in H by lia.
      rewrite Z.mod_add, Z.mod_small in H by lia. lia.
    + rewrite Z.mod_small in H by lia. lia.
Qed.

(** The one-character-per-word loop on a terminated string. *)
Lemma puts_loop_string str rest m :
  Forall (fun w => w <> 0) str ->
  puts_loop (str ++ 0 :: rest) m
  = Ok tt (on_world (emit (map (fun w => EvPutc (w mod 256)) str)) m).
Proof.
  intros Hs. revert m. induction Hs as [| w str Hw _ IH]; intros m.
  - cbn [app puts_loop map]. rewrite on_world_emit_nil. reflexivity.
  - cbn [app puts_loop map]. destruct (Z.eqb_spec w 0); [contradiction |]. cbn [negb].
    rewrite bind_unfold, putc_eq, IH, on_world_emit, uchar_of_char. reflexivity.
Qed.

(** The same loop on a part of memory that holds no zero word. *)
Lemma puts_loop_unterminated c m :
  Forall (fun w => w <> 0) c -> puts_loop c m = Undefined.
Proof.
  intros Hs. revert m. induction Hs as [| w str Hw _ IH]; intros m; [reflexivity |].
  cbn [puts_loop]. destruct (Z.eqb_spec w 0); [contradiction |]. cbn [negb].
  rewrite bind_unfold, putc_eq, IH. reflexivity.
Qed.

Lemma putsp_loop_string str rest m :
  Forall (fun w => w <> 0) str ->
  putsp_loop (str ++ 0 :: rest) m
  = Ok tt (on_world (emit (map EvPutc (flat_map packed_bytes str))) m).
Proof.
  intros Hs. revert m. induction Hs as [| w str Hw _ IH]; intros m.
  - cbn [app putsp_loop map flat_map]. rewrite on_world_emit_nil. reflexivity.
  - cbn [app putsp_loop flat_map]. destruct (Z.eqb_spec w 0); [contradiction |]. cbn [negb].
    rewrite map_app. unfold packed_bytes at 1.
    rewrite char_is_zero.
    change 255 with (Z.ones 8). rewrite Z.land_ones by lia. change (2 ^ 8) with 256.
    io_steps. rewrite uchar_of_char, Z.mod_mod by lia.
    destruct (Z.shiftr w 8 mod 256 =? 0); cbn [negb]; io_steps.
    + rewrite IH, on_world_emit. reflexivity.
    + rewrite IH, !on_world_emit, uchar_of_char. reflexivity.
Qed.

Lemma only_output_emit m evs : only_output m (on_world (emit evs) m) evs.
Proof. repeat split. Qed.

Ltac vector H :=
  unfold exec_TRAP; rewrite H;
  cbn [Z.eqb Pos.eqb TRAP_GETC TRAP_OUT TRAP_PUTS TRAP_IN TRAP_PUTSP TRAP_HALT].

(** C9. PUTS and PUTSP walk the memory array itself from the address in
    R0 up to the first zero word: the output is made of the stored cells
    (for PUTSP the low byte, then the high byte when not zero), wherever
    the string lies, the keyboard cells included; the host sees only
    [putc] and [fflush], so no poll and no read of the input; memory and
    all registers are as before. *)
Theorem string_traps_print_stored_cells (instr : Z) (m : machine) (str rest : list Z) :
  wf m ->
  Z.shiftr instr 12 = OP_TRAP ->
  drop (Z.to_nat (reg R_R0 m)) (memory m) = str ++ 0 :: rest ->
  Forall (fun w => w <> 0) str ->
  (Z.land instr 0xFF = TRAP_PUTS ->
   exists m', execute instr m = Ok true m'
              /\ only_output m m' (map (fun w => EvPutc (w mod 256)) str ++ [EvFlush]))
  /\ (Z.land instr 0xFF = TRAP_PUTSP ->
      exists m', execute instr m = Ok true m'
                 /\ only_output m m' (map EvPutc (flat_map packed_bytes str) ++ [EvFlush])).
Proof.
  intros Hwf Hop Hmem Hstr. apply wf_regs_length in Hwf.
  split; intros Hv; eexists; (split; [| apply only_output_emit]);
    dispatch Hop; vector Hv;
    rewrite bind_unfold, get_reg_ok by (assumption || (unfold R_R0; lia));
    cbv beta iota; rewrite !bind_unfold; cbv beta iota; rewrite Hmem.
  - rewrite puts_loop_string by assumption. io_steps.
    rewrite on_world_emit. reflexivity.
  - rewrite putsp_loop_string by assumption. io_steps.
    rewrite on_world_emit. reflexivity.
Qed.

(** A string laid across the keyboard cells 0xFE00 and 0xFE01, with a key
    waiting, printed by PUTS and by PUTSP. *)
Lemma string_traps_print_stored_cells_witness :
  (exists m', execute 0xF022 banner_state = Ok true m'
              /\ only_output banner_state m'
                   (map (fun w => EvPutc (w mod 256)) [104; 105; 33] ++ [EvFlush]))
  /\ (exists m', execute 0xF024 packed_state = Ok true m'
                 /\ only_output packed_state m'
                      (map EvPutc (flat_map packed_bytes [0x6968; 0x0021]) ++ [EvFlush])).
Proof.
  split.
  - refine (proj1 (string_traps_print_stored_cells 0xF022 banner_state [104; 105; 33]
                     (replicate (Z.to_nat (UINT16_MAX - 0xFE03)) 0) _ _ _ _) _).
    + vm_compute. reflexivity.
    + reflexivity.
    + vm_compute. reflexivity.
    + repeat constructor; lia.
    + reflexivity.
  - refine (proj2 (string_traps_print_stored_cells 0xF024 packed_state [0x6968; 0x0021]
                     (replicate (Z.to_nat (UINT16_MAX - 0xFE02)) 0) _ _ _ _) _).
    + vm_compute. reflexivity.
    + reflexivity.
    + vm_compute. reflexivity.
    + repeat constructor; lia.
    + reflexivity.
Defined.

(** ** Input traps at end of file *)

(** C10. When the input is at end of file, GETC and IN leave 0xFFFF in R0
    (the -1 of [getchar] as a 16-bit word), change no other register and
    no memory cell, and return with [running] still set. *)
Theorem input_traps_at_eof (instr : Z) (m : machine) :
  wf m ->
  Z.shiftr instr 12 = OP_TRAP ->
  Z.land instr 0xFF = TRAP_GETC \/ Z.land instr 0xFF = TRAP_IN ->
  stdin (world m) = [] ->
  exists m',
    execute instr m = Ok true m'
    /\ reg R_R0 m' = 0xFFFF
    /\ (forall r, 0 < r -> reg r m' = reg r m)
    /\ memory m' = memory m.
Proof.
  intros Hwf Hop Hv Hin. apply wf_regs_length in Hwf.
  assert (Hc : next_char (world m) = EOF) by (unfold next_char; rewrite Hin; reflexivity).
  destruct Hv as [Hv | Hv]; dispatch Hop; vector Hv; io_steps;
    (rewrite set_reg_ok by (exact Hwf || (unfold R_R0; lia))); cbv beta iota;
    (eexists; split; [reflexivity |]; split; [| split]).
  - rewrite reg_setr_eq by (exact Hwf || (unfold R_R0; lia)).
    rewrite Hc. reflexivity.
  - intros r Hr. rewrite reg_setr_ne by (unfold R_R0; lia). reflexivity.
  - reflexivity.
  - rewrite reg_setr_eq by (exact Hwf || (unfold R_R0; lia)).
    change (next_char (world (on_world (emit [EvPrint " "]) m)))
      with (next_char (world m)).
    rewrite Hc. reflexivity.
  - intros r Hr. rewrite reg_setr_ne by (unfold R_R0; lia). reflexivity.
  - reflexivity.
Qed.

(** GETC and IN on the boot state with an empty input. *)
Lemma input_traps_at_eof_witness :
  (exists m', execute 0xF020 (boot quiet) = Ok true m'
              /\ reg R_R0 m' = 0xFFFF
              /\ (forall r, 0 < r -> reg r m' = reg r (boot quiet))
              /\ memory m' = memory (boot quiet))
  /\ (exists m', execute 0xF023 (boot quiet) = Ok true m'
                 /\ reg R_R0 m' = 0xFFFF
                 /\ (forall r, 0 < r -> reg r m' = reg r (boot quiet))
                 /\ memory m' = memory (boot quiet)).
Proof.
  split.
  - apply (input_traps_at_eof 0xF020 (boot quiet));
      [vm_compute; reflexivity | reflexivity | left; reflexivity | reflexivity].
  - apply (input_traps_at_eof 0xF023 (boot quiet));
      [vm_compute; reflexivity | reflexivity | right; reflexivity | reflexivity].
Defined.

(** ** Loading images *)

Lemma same_but_memory_refl m : same_but_memory m m.
Proof. repeat split. Qed.

Lemma same_but_memory_trans m1 m2 m3 :
  same_but_memory m1 m2 -> same_but_memory m2 m3 -> same_but_memory m1 m3.
Proof. unfold same_but_memory. intros (? & ? & ?) (? & ? & ?). repeat split; congruence. Qed.

Lemma same_but_memory_poke a v m : same_but_memory m (poke a v m).
Proof. split; [apply mem_length_poke | split; reflexivity]. Qed.

Lemma fread_words_ok n : forall bytes p m,
  Z.of_nat (length (memory m)) = 65535 -> 0 <= p -> p + Z.of_nat n <= 65535 ->
  exists k m', fread_words p n bytes m = Ok k m' /\ (k <= n)%nat /\ same_but_memory m m'.
Proof.
  induction n as [| n IH]; intros bytes p m Hl Hp Hn.
  - exists O, m. split; [reflexivity | split; [lia | apply same_but_memory_refl]].
  - destruct bytes as [| lo [| hi bytes]].
    { exists O, m. split; [reflexivity | split; [lia | apply same_but_memory_refl]]. }
    { destruct (mem_get_ok m p Hl ltac:(lia)) as (w & _ & Hw).
      exists O, (poke p (wrap16 (Z.land w 0xFF00 + to_uchar lo)) m).
      cbn [fread_words]. rewrite bind_unfold, Hw.
      rewrite bind_unfold, mem_set_ok by (assumption || lia).
      split; [reflexivity | split; [lia | apply same_but_memory_poke]]. }
    cbn [fread_words]. rewrite bind_unfold, mem_set_ok by (assumption || lia).
    cbv beta iota. rewrite bind_unfold.
    destruct (IH bytes (p + 1) (poke p (wrap16 (to_uchar lo + 256 * to_uchar hi)) m))
      as (k & m' & -> & Hk & Hs); [rewrite mem_length_poke; assumption | lia | lia |].
    exists (S k), m'. split; [reflexivity | split; [lia |]].
    eapply same_but_memory_trans; [apply same_but_memory_poke | exact Hs].
Qed.

Lemma swap_loop_ok n : forall p m,
  Z.of_nat (length (memory m)) = 65535 -> 0 <= p -> p + Z.of_nat n <= 65535 ->
  exists m', swap_loop p n m = Ok tt m' /\ same_but_memory m m'.
Proof.
  induction n as [| n IH]; intros p m Hl Hp Hn.
  - exists m. split; [reflexivity | apply same_but_memory_refl].
  - cbn [swap_loop].
    destruct (mem_get_ok m p Hl ltac:(lia)) as (w & _ & Hw).
    rewrite bind_unfold, Hw. rewrite bind_unfold, mem_set_ok by (assumption || lia).
    destruct (IH (p + 1) (poke p (wrap16 (swap16 w)) m)) as (m' & -> & Hs);
      [rewrite mem_length_poke; assumption | lia | lia |].
    exists m'. split; [reflexivity |].
    eapply same_but_memory_trans; [apply same_but_memory_poke | exact Hs].
Qed.

(** Every file loads without fault, whatever its origin and its length. *)
Lemma readImageFile_ok f m :
  Z.of_nat (length (memory m)) = 65535 ->
  exists m', readImageFile f m = Ok tt m' /\ same_but_memory m m'.
Proof.
  intros Hl. destruct f as [| lo [| hi rest]];
    try (exists m; split; [reflexivity | apply same_but_memory_refl]).
  unfold readImageFile.
  set (origin := swap16 (to_uchar lo + 256 * to_uchar hi)).
  assert (Ho : 0 <= origin < 65536) by apply wrap16_range.
  assert (Hmax : wrap16 (UINT16_MAX - origin) = 65535 - origin)
    by (apply wrap16_small; unfold UINT16_MAX; lia).
  rewrite Hmax, bind_unfold.
  destruct (fread_words_ok (Z.to_nat (65535 - origin)) rest origin m)
    as (k & m1 & -> & Hk & Hs1); [assumption | lia | lia |].
  destruct (swap_loop_ok k origin m1) as (m2 & -> & Hs2).
  - destruct Hs1 as (-> & _). assumption.
  - lia.
  - lia.
  - exists m2. split; [reflexivity |].
    eapply same_but_memory_trans; eassumption.
Qed.

Lemma fopen_eq path m :
  fopen path m
  = Ok (lookup_file path (files (world m)))
       (on_world (emit [EvFopen path (bool_decide (is_Some (lookup_file path (files (world m)))))]) m).
Proof. reflexivity. Qed.

(** A path that opens is read, and the loop goes on to the next one. *)
Lemma readImage_loads path f m :
  Z.of_nat (length (memory m)) = 65535 ->
  lookup_file path (files (world m)) = Some f ->
  exists m', readImage path m = Ok 1 m'
             /\ same_but_memory (on_world (emit [EvFopen path true]) m) m'.
Proof.
  intros Hl Hf. unfold readImage.
  rewrite bind_unfold, fopen_eq, Hf. cbv beta iota.
  destruct (readImageFile_ok f (on_world (emit [EvFopen path true]) m) Hl)
    as (m' & Hr & Hs).
  exists m'. split; [| exact Hs].
  rewrite bind_unfold.
  replace (bool_decide (is_Some (Some f))) with true by reflexivity.
  rewrite Hr. reflexivity.
Qed.

(** The loading loop on a list of paths whose first failure is [bad]. *)
Lemma load_images_first_failure good : forall bad rest m,
  Z.of_nat (length (memory m)) = 65535 ->
  (forall p, p ∈ good -> is_Some (lookup_file p (files (world m)))) ->
  lookup_file bad (files (world m)) = None ->
  exists m',
    load_images (good ++ bad :: rest) m = Exit 1 m'
    /\ registers m' = registers m
    /\ world m'
       = emit (map (fun p => EvFopen p true) good
               ++ [EvFopen bad false; EvPrint (failure_message bad)]) (world m).
Proof.
  induction good as [| p good IH]; intros bad rest m Hl Hgood Hbad.
  - cbn [app load_images map]. unfold readImage.
    rewrite !bind_unfold, fopen_eq, Hbad. cbv beta iota.
    rewrite mret_eq. cbv beta iota. cbn [Z.eqb].
    rewrite bind_unfold, printf_eq. cbv beta iota.
    eexists. split; [reflexivity |]. split; [reflexivity |].
    unfold on_world. cbn [world]. rewrite emit_emit. reflexivity.
  - cbn [app load_images map].
    destruct (Hgood p ltac:(left)) as (f & Hf).
    destruct (readImage_loads p f m Hl Hf) as (m1 & Hr & Hlen1 & Hregs1 & Hw1).
    rewrite bind_unfold, Hr. cbn [Z.eqb].
    destruct (IH bad rest m1) as (m' & Hrun & Hregs & Hw).
    + rewrite Hlen1. exact Hl.
    + intros q Hq. rewrite Hw1. apply Hgood. right. exact Hq.
    + rewrite Hw1. exact Hbad.
    + exists m'. split; [exact Hrun |]. split; [rewrite Hregs, Hregs1; reflexivity |].
      rewrite Hw, Hw1. cbn [world on_world]. rewrite emit_emit. reflexivity.
Qed.

Lemma boot_mem_length h : Z.of_nat (length (memory (boot h))) = 65535.
Proof. unfold boot. cbn [memory]. rewrite length_replicate. reflexivity. Qed.

(** C8, as the loading loop runs.  The paths are tried in command-line
    order; at the first one that cannot be opened the failure is
    reported and the process exits with status 1 at once, so no later path
    is tried and no later failure is reported.  The paths before it need
    only open: whatever their files hold, they are read without fault. *)
Theorem load_stops_at_first_failure
    (fuel : nat) (prog : string) (good : list string) (bad : string)
    (rest : list string) (h : host) :
  (forall p, p ∈ good -> is_Some (lookup_file p (files h))) ->
  lookup_file bad (files h) = None ->
  exists m',
    main fuel (prog :: good ++ bad :: rest) (boot h) = Exit 1 m'
    /\ trace (world m')
       = trace h ++ map (fun p => EvFopen p true) good
                 ++ [EvFopen bad false; EvPrint (failure_message bad)].
Proof.
  intros Hgood Hbad.
  destruct (load_images_first_failure good bad rest (boot h) (boot_mem_length h) Hgood Hbad)
    as (m' & Hrun & _ & Hw).
  exists m'. split; [| rewrite Hw; reflexivity].
  unfold main. cbn [tail].
  assert (Hargc : (Z.of_nat (length (prog :: good ++ bad :: rest)) <? 2) = false).
  { apply Z.ltb_ge. cbn [length]. rewrite length_app. cbn [length]. lia. }
  rewrite Hargc. io_steps. rewrite Hrun. reflexivity.
Qed.

(** Two images that open, one of a single byte, then one missing and one
    never reached. *)
Lemma load_stops_at_first_failure_witness :
  exists m',
    main 0 ("lc3" :: ["ok.obj"; "stub.obj"] ++ "missing.obj" :: ["later.obj"])%string
         (boot short_image)
    = Exit 1 m'
    /\ trace (world m')
       = trace short_image
           ++ map (fun p => EvFopen p true) ["ok.obj"; "stub.obj"]%string
           ++ [EvFopen "missing.obj" false; EvPrint (failure_message "missing.obj")].
Proof.
  apply (load_stops_at_first_failure 0 "lc3" ["ok.obj"; "stub.obj"]%string "missing.obj"
           ["later.obj"%string] short_image).
  - intros p Hp. apply elem_of_cons in Hp as [-> | Hp];
      [| apply list_elem_of_singleton in Hp; subst p]; eexists; reflexivity.
  - reflexivity.
Defined.

(** C8, as stated, fails: with two paths that both cannot be opened the
    process exits after the first one and never tries the second. *)
Lemma later_path_not_tried :
  ~ every_path_tried ["lc3"; "a.obj"; "b.obj"]%string quiet.
Proof.
  intros H.
  destruct (load_images_first_failure [] "a.obj" ["b.obj"]%string (boot quiet)
              (boot_mem_length quiet)) as (m' & Hrun & _ & Hw).
  { intros p Hp. inversion Hp. }
  { reflexivity. }
  assert (Hmain : main 0 ["lc3"; "a.obj"; "b.obj"]%string (boot quiet) = Exit 1 m').
  { unfold main. cbn [tail].
    change (Z.of_nat (length ["lc3"; "a.obj"; "b.obj"]%string) <? 2) with false.
    io_steps. cbn [app] in Hrun. rewrite Hrun. reflexivity. }
  specialize (H 0%nat 1 m' Hmain "b.obj"%string).
  rewrite Hw in H. vm_compute in H.
  assert (Hin : "b.obj"%string ∈ ["a.obj"; "b.obj"]%string) by (right; left).
  specialize (H Hin). inversion H as [| ? ? ? Hnil]; inversion Hnil.
Qed.

(** ** The last address *)

(** The array has no cell 0xFFFF: a read there leaves it. *)
Lemma mem_read_last_cell a m :
  Z.of_nat (length (memory m)) = 65535 -> wrap16 a = 65535 ->
  mem_read a m = Undefined.
Proof.
  intros Hl Ha. unfold mem_read. rewrite Ha.
  change (65535 =? MR_KBSR) with false. io_steps.
  unfold mem_get. rewrite (proj2 (lookup_ge_None (memory m) (Z.to_nat 65535))) by lia.
  reflexivity.
Qed.

Lemma mem_write_last_cell a v m :
  Z.of_nat (length (memory m)) = 65535 -> wrap16 a = 65535 ->
  mem_write a v m = Undefined.
Proof.
  intros Hl Ha. unfold mem_write, mem_set. rewrite Ha.
  destruct (Nat.ltb_spec (Z.to_nat 65535) (length (memory m))); [lia | reflexivity].
Qed.

Lemma mem_read_wrap a m : mem_read a m = mem_read (wrap16 a) m.
Proof.
  unfold mem_read, wrap16. rewrite Z.mod_mod by lia. reflexivity.
Qed.

(** Every other address is read without fault. *)
Lemma mem_read_defined a m :
  Z.of_nat (length (memory m)) = 65535 -> wrap16 a <> 65535 ->
  exists v m', mem_read a m = Ok v m'.
Proof.
  intros Hl Ha. pose proof (wrap16_range a) as Hr. rewrite mem_read_wrap.
  destruct (Z.eq_dec (wrap16 a) MR_KBSR) as [Hk | Hk].
  - rewrite Hk. destruct (pending (world m)) eqn:Hp; eexists _, _.
    + apply status_read_key; assumption.
    + apply status_read_idle; assumption.
  - destruct (mem_get_ok m (wrap16 a) Hl ltac:(lia)) as (v & Hc & _).
    exists v, m. apply mem_read_plain; assumption.
Qed.

(** C3, at the failing address.  The array declared with [UINT16_MAX]
    cells has 65,535 of them, so a read, a write or a fetch at address
    0xFFFF leaves it. *)
Theorem last_address_out_of_bounds :
  Z.of_nat (length (memory (boot quiet))) = 65535
  /\ mem_read 0xFFFF (boot quiet) = Undefined
  /\ mem_write 0xFFFF 1 (boot quiet) = Undefined
  /\ fetch (setr R_PC 0xFFFF (boot quiet)) = Undefined.
Proof. repeat split; vm_compute; reflexivity. Qed.


(** ** The reserved opcodes and the unknown trap vectors *)

(** The reserved opcodes abort the process. *)
Lemma reserved_opcode_aborts instr m :
  Z.shiftr instr 12 = OP_RES \/ Z.shiftr instr 12 = OP_RTI ->
  execute instr m = Abort m.
Proof. intros [H | H]; dispatch H; reflexivity. Qed.

(** A trap vector outside 0x20..0x25 meets no case of the inner switch:
    nothing happens and [running] stays set. *)
Lemma unknown_vector_is_skipped instr m :
  Z.shiftr instr 12 = OP_TRAP ->
  known_vector (Z.land instr 0xFF) = false ->
  execute instr m = Ok true m.
Proof.
  intros Hop Hv. dispatch Hop. unfold exec_TRAP.
  unfold known_vector in Hv. apply bool_decide_eq_false in Hv.
  rewrite !not_elem_of_cons in Hv. destruct Hv as (H1 & H2 & H3 & H4 & H5 & H6 & _).
  repeat match goal with
         | |- context [Z.land instr 255 =? ?v] =>
             destruct (Z.eqb_spec (Z.land instr 255) v); [contradiction |]
         end.
  reflexivity.
Qed.

(** C4, at a failing instruction.  TRAP 0xFF meets no case of the inner
    switch: the cycle changes nothing but the program counter and the
    loop runs on to the next instruction, here a HALT. *)
Theorem unknown_trap_goes_on :
  known_vector (Z.land 0xF0FF 0xFF) = false
  /\ after (cycle bad_trap_state) (fun m' => (registers m', trace (world m')))
     = Some (true, (registers (setr R_PC 0x3001 bad_trap_state), []))
  /\ after (run 2 bad_trap_state) (fun m' => trace (world m'))
     = Some (tt, [EvPrint ("Done!" ++ newline); EvFlush]).
Proof. repeat split; vm_compute; reflexivity. Qed.

(** ** STI and JSR *)

(** The STI handler never looks at bits 11:9. *)
Lemma exec_STI_ignores_source_field instr instr' :
  Z.land instr 0x1FF = Z.land instr' 0x1FF -> exec_STI instr = exec_STI instr'.
Proof. intros H. unfold exec_STI. rewrite H. reflexivity. Qed.

(** What the JSR handler does: R7 gets the program counter, then the
    offset (bit 11 set) or the register (bit 11 clear) is added to the
    program counter. *)
Lemma exec_JSR_adds instr m :
  length (registers m) = 10%nat ->
  let pc := reg R_PC m in
  let m7 := setr R_R7 (wrap16 pc) m in
  exec_JSR instr m
  = Ok tt (setr R_PC
             (wrap16 (pc + (if Z.testbit instr 11
                            then signExtend (Z.land instr 0x7FF) 11
                            else reg (Z.land (Z.shiftr instr 6) 7) m7)))
             m7).
Proof.
  intros Hl pc m7. unfold exec_JSR.
  pose proof (sign_bit_test instr 12 ltac:(lia)) as Hb. change (12 - 1) with 11 in Hb.
  rewrite Hb.
  assert (H7 : length (registers m7) = 10%nat) by (unfold m7; rewrite regs_length_setr; exact Hl).
  assert (Hpc : reg R_PC m7 = pc) by (unfold m7; apply reg_setr_ne; unfold R_R7, R_PC; lia).
  rewrite bind_unfold, get_reg_ok by reg_index. cbv beta iota.
  rewrite bind_unfold, set_reg_ok by reg_index. cbv beta iota. fold pc. fold m7.
  destruct (Z.testbit instr 11); cbn [Z.b2z Z.eqb negb];
    repeat progress (rewrite ?bind_unfold, ?get_reg_ok by reg_index; cbv beta iota);
    rewrite set_reg_ok by reg_index; rewrite Hpc; reflexivity.
Qed.

(** C1, at a failing instruction.  STI R1, #0 stores the value of R0 at
    the address found in memory, not the value of R1 named by bits
    11:9. *)
Theorem sti_stores_R0 :
  after (cycle sti_state) (cell 0x4000) = Some (true, Some 0xAAAA)
  /\ reg R_R0 sti_state = 0xAAAA
  /\ reg (Z.land (Z.shiftr 0xB200 9) 7) sti_state = 0x5555.
Proof. repeat split; vm_compute; reflexivity. Qed.


(** C2, at a failing instruction.  JSRR R1 saves the incremented program
    counter in R7 and then adds R1 to the program counter: 0x3001 +
    0x5000, where the claim has 0x5000. *)
Theorem jsrr_adds_register :
  after (cycle jsrr_state) (fun m' => (reg R_R7 m', reg R_PC m'))
  = Some (true, (0x3001, 0x8001))
  /\ reg (Z.land (Z.shiftr 0x4040 6) 7) jsrr_state = 0x5000.
Proof. repeat split; vm_compute; reflexivity. Qed.

(** ** Flags after a load *)

Lemma mem_read_length a m :
  outcome (mem_read a m) True (fun _ m' => length (memory m') = length (memory m)).
Proof.
  unfold mem_read, mbind, M_bind, mret, M_ret, check_key, getchar, mem_set, mem_get.
  repeat case_match; simplify_eq; cbn [outcome memory on_world];
    rewrite ?length_insert; done.
Qed.

(** A read of memory leaves the array exactly at address 0xFFFF; when it
    returns, the registers and the size of memory are as before. *)
Lemma mem_read_returns a m :
  Z.of_nat (length (memory m)) = 65535 ->
  (wrap16 a = 65535 /\ mem_read a m = Undefined)
  \/ (wrap16 a <> 65535
      /\ exists v m', mem_read a m = Ok v m'
                      /\ registers m' = registers m
                      /\ Z.of_nat (length (memory m')) = 65535).
Proof.
  intros Hl. destruct (Z.eq_dec (wrap16 a) 65535) as [Ha | Ha].
  - left. split; [exact Ha | apply mem_read_last_cell; assumption].
  - right. split; [exact Ha |].
    destruct (mem_read_defined a m Hl Ha) as (v & m' & Hr).
    pose proof (mem_read_regs a m) as H1. pose proof (mem_read_length a m) as H2.
    rewrite Hr in H1, H2. cbn [outcome] in H1, H2.
    exists v, m'. split; [exact Hr |]. split; [exact H1 | rewrite H2; exact Hl].
Qed.

Lemma write_back_flags m r0 v :
  length (registers m) = 10%nat -> 0 <= r0 < 8 ->
  exists m', (set_reg r0 v;; updateFlgs r0) m = Ok tt m' /\ flags_describe r0 m'.
Proof.
  intros Hl Hr. pose proof (write_back m r0 v False Hl Hr) as H.
  destruct ((set_reg r0 v;; updateFlgs r0) m) as [[] m' | | | |];
    cbn [outcome] in H; try contradiction.
  exists m'. split; [reflexivity | exact H].
Qed.

(** LD and LDR: one read, then the write-back. *)
Lemma one_read_then_flags a dr m :
  wf m -> 0 <= dr < 8 ->
  (wrap16 a <> 65535 ->
   exists m', (v ← mem_read a; set_reg dr v;; updateFlgs dr) m = Ok tt m'
              /\ flags_describe dr m')
  /\ (wrap16 a = 65535 ->
      (v ← mem_read a; set_reg dr v;; updateFlgs dr) m = Undefined).
Proof.
  intros Hwf Hdr. pose proof (wf_regs_length m Hwf) as Hl.
  rewrite bind_unfold.
  destruct (mem_read_returns a m (wf_mem_length m Hwf))
    as [[Ha ->] | (Ha & v & m' & -> & Hr & _)].
  - split; [contradiction | reflexivity].
  - split; [intros _ | contradiction].
    apply write_back_flags; [rewrite Hr; exact Hl | exact Hdr].
Qed.

(** LDI: two reads, the second at the word the first returns. *)
Lemma two_reads_then_flags a dr m :
  wf m -> 0 <= dr < 8 ->
  let leaves := wrap16 a = 65535
                \/ exists p m1, mem_read a m = Ok p m1 /\ wrap16 p = 65535 in
  (~ leaves ->
   exists m', (p ← mem_read a; v ← mem_read p; set_reg dr v;; updateFlgs dr) m = Ok tt m'
              /\ flags_describe dr m')
  /\ (leaves ->
      (p ← mem_read a; v ← mem_read p; set_reg dr v;; updateFlgs dr) m = Undefined).
Proof.
  intros Hwf Hdr leaves. pose proof (wf_regs_length m Hwf) as Hl.
  rewrite bind_unfold.
  destruct (mem_read_returns a m (wf_mem_length m Hwf))
    as [[Ha Hu] | (Ha & p & m1 & Hr1 & Hregs1 & Hl1)].
  - rewrite Hu. split; [intros Hn; exfalso; apply Hn; left; exact Ha | reflexivity].
  - rewrite Hr1. rewrite bind_unfold.
    destruct (mem_read_returns p m1 Hl1)
      as [[Hp Hu] | (Hp & v & m2 & Hr2 & Hregs2 & _)].
    + rewrite Hu. split; [| reflexivity].
      intros Hn. exfalso. apply Hn. right. exists p, m1. split; [exact Hr1 | exact Hp].
    + rewrite Hr2. split.
      * intros _. apply write_back_flags; [rewrite Hregs2, Hregs1; exact Hl | exact Hdr].
      * intros [Ha' | (p' & m1' & Heq & Hp')]; [contradiction |].
        rewrite Hr1 in Heq. injection Heq as <- <-. contradiction.
Qed.

Lemma always_returns_then_flags (h : M unit) dr m :
  outcome (h m) False (fun _ m' => flags_describe dr m') ->
  exists m', (h;; mret true) m = Ok true m' /\ flags_describe dr m'.
Proof.
  intros H. rewrite bind_unfold.
  destruct (h m) as [[] m' | | | |]; cbn [outcome] in H; try contradiction.
  exists m'. split; [reflexivity | exact H].
Qed.

Lemma returns_continues (h : M unit) m (P : machine -> Prop) :
  (exists m', h m = Ok tt m' /\ P m') ->
  exists m', (h;; mret true) m = Ok true m' /\ P m'.
Proof.
  intros (m' & H & HP). exists m'. split; [| exact HP].
  rewrite bind_unfold, H. reflexivity.
Qed.

Lemma leaves_stops (h : M unit) m :
  h m = Undefined -> (h;; mret true) m = Undefined.
Proof. intros H. rewrite bind_unfold, H. reflexivity. Qed.

(** C6. After the handler of an opcode that writes a general-purpose
    register (ADD, AND, NOT, LD, LDI, LDR, LEA) the handler has returned,
    the loop goes on, and the condition-flags register holds one of
    POSITIVE, ZERO, NEGATIVE: ZERO when the destination register (bits
    11:9) is 0, NEGATIVE when its bit 15 is set, POSITIVE otherwise.  The
    one exception is a load that reads address 0xFFFF, directly or, for
    LDI, through its pointer: that load leaves the memory array, and no
    other instruction of the seven does. *)
Theorem flags_describe_destination (instr : Z) (m : machine) :
  wf m ->
  writes_register (Z.shiftr instr 12) = true ->
  (~ load_leaves_memory instr m ->
   exists m',
     execute instr m = Ok true m'
     /\ flags_describe (Z.land (Z.shiftr instr 9) 7) m')
  /\ (load_leaves_memory instr m -> execute instr m = Undefined).
Proof.
  intros Hwf Hop. pose proof (wf_regs_length m Hwf) as Hl.
  pose proof (reg_field_range (Z.shiftr instr 9)) as Hdr.
  unfold writes_register in Hop. apply bool_decide_eq_true in Hop.
  rewrite !elem_of_cons, elem_of_nil in Hop.
  unfold load_leaves_memory, load_address.
  destruct Hop as [H | [H | [H | [H | [H | [H | [H | []]]]]]]];
    rewrite H; dispatch H.
  - split; [intros _ | intros [Hf _]; discriminate Hf].
    apply always_returns_then_flags, exec_ADD_flags, Hl.
  - split; [intros _ | intros [Hf _]; discriminate Hf].
    apply always_returns_then_flags, exec_AND_flags, Hl.
  - split; [intros _ | intros [Hf _]; discriminate Hf].
    apply always_returns_then_flags, exec_NOT_flags, Hl.
  - cbn [Z.eqb Pos.eqb OP_LD OP_LDR OP_LDI].
    rewrite (bind_unfold (exec_LD instr)).
    unfold exec_LD. cbv zeta. rewrite (bind_unfold (get_reg R_PC)), get_reg_ok by reg_index.
    rewrite <- bind_unfold.
    destruct (one_read_then_flags
                (reg R_PC m + signExtend (Z.land instr 511) 9)
                (Z.land (Z.shiftr instr 9) 7) m Hwf Hdr) as [Hok Hbad].
    split.
    + intros Hn. apply returns_continues, Hok. intros Ha. apply Hn.
      split; [reflexivity | left; exact Ha].
    + intros [_ [Ha | [Hx _]]]; [| discriminate Hx].
      apply leaves_stops, Hbad, Ha.
  - cbn [Z.eqb Pos.eqb OP_LD OP_LDR OP_LDI].
    rewrite (bind_unfold (exec_LDI instr)).
    unfold exec_LDI. cbv zeta. rewrite (bind_unfold (get_reg R_PC)), get_reg_ok by reg_index.
    rewrite <- bind_unfold.
    destruct (two_reads_then_flags
                (reg R_PC m + signExtend (Z.land instr 511) 9)
                (Z.land (Z.shiftr instr 9) 7) m Hwf Hdr) as [Hok Hbad].
    rewrite <- mem_read_wrap. split.
    + intros Hn. apply returns_continues, Hok. intros Hlv. apply Hn.
      split; [reflexivity |]. destruct Hlv as [Ha | Hp]; [left; exact Ha |].
      right. split; [reflexivity | exact Hp].
    + intros [_ [Ha | [_ Hp]]]; apply leaves_stops, Hbad; [left | right]; assumption.
  - cbn [Z.eqb Pos.eqb OP_LD OP_LDR OP_LDI].
    rewrite (bind_unfold (exec_LDR instr)).
    unfold exec_LDR. cbv zeta. rewrite (bind_unfold (get_reg _)), get_reg_ok by reg_index.
    rewrite <- bind_unfold.
    destruct (one_read_then_flags
                (reg (Z.land (Z.shiftr instr 6) 7) m + signExtend (Z.land instr 63) 6)
                (Z.land (Z.shiftr instr 9) 7) m Hwf Hdr) as [Hok Hbad].
    split.
    + intros Hn. apply returns_continues, Hok. intros Ha. apply Hn.
      split; [reflexivity | left; exact Ha].
    + intros [_ [Ha | [Hx _]]]; [| discriminate Hx].
      apply leaves_stops, Hbad, Ha.
  - split; [intros _ | intros [Hf _]; discriminate Hf].
    apply always_returns_then_flags, exec_LEA_flags, Hl.
Qed.

(** With the program counter at 0x3001 after the fetch, LD R1, #5 reads
    0x8001 from cell 0x3006 and returns with R1 = 0x8001 and NEGATIVE;
    ADD R1, R1, #-1 on the boot state returns with R1 = 0xFFFF and
    NEGATIVE; LD R1, #1 with the program counter at 0xFFFE, and LDI R1, #5
    through the pointer 0xFFFF in cell 0x3006, leave the array. *)
Lemma flags_describe_destination_witness :
  (exists m', execute 0x2205 (setr R_PC 0x3001 (poke 0x3006 0x8001 (boot quiet))) = Ok true m'
              /\ flags_describe (Z.land (Z.shiftr 0x2205 9) 7) m')
  /\ after (execute 0x2205 (setr R_PC 0x3001 (poke 0x3006 0x8001 (boot quiet))))
           (fun m' => (reg 1 m', reg R_COND m'))
     = Some (true, (0x8001, FL_NEG))
  /\ (exists m', execute 0x127F (boot quiet) = Ok true m'
                 /\ flags_describe (Z.land (Z.shiftr 0x127F 9) 7) m')
  /\ execute 0x2201 (setr R_PC 0xFFFE (boot quiet)) = Undefined
  /\ execute 0xA205 (setr R_PC 0x3001 (poke 0x3006 0xFFFF (boot quiet))) = Undefined.
Proof.
  split; [| split; [| split; [| split]]].
  - apply (flags_describe_destination 0x2205 (setr R_PC 0x3001 (poke 0x3006 0x8001 (boot quiet))));
      [vm_compute; reflexivity | vm_compute; reflexivity |].
    intros [_ [H | [H _]]]; vm_compute in H; discriminate H.
  - vm_compute. reflexivity.
  - apply (flags_describe_destination 0x127F (boot quiet));
      [vm_compute; reflexivity | vm_compute; reflexivity |].
    intros [H _]; vm_compute in H; discriminate H.
  - apply (flags_describe_destination 0x2201 (setr R_PC 0xFFFE (boot quiet)));
      [vm_compute; reflexivity | vm_compute; reflexivity |].
    split; [vm_compute; reflexivity | left; vm_compute; reflexivity].
  - apply (flags_describe_destination 0xA205 (setr R_PC 0x3001 (poke 0x3006 0xFFFF (boot quiet))));
      [vm_compute; reflexivity | vm_compute; reflexivity |].
    split; [vm_compute; reflexivity | right].
    split; [vm_compute; reflexivity |].
    exists 0xFFFF, (setr R_PC 0x3001 (poke 0x3006 0xFFFF (boot quiet))).
    split; [| vm_compute; reflexivity].
    replace (load_address 0xA205 (setr R_PC 0x3001 (poke 0x3006 0xFFFF (boot quiet))))
      with 0x3006 by (vm_compute; reflexivity).
    apply mem_read_plain; [lia | unfold MR_KBSR; lia | vm_compute; reflexivity].
Defined.

(* ===================================================================== *)
(** * Further properties of the program                                   *)
(* ===================================================================== *)

(** ** Byte order *)

Lemma swap16_bytes lo hi :
  0 <= lo < 256 -> 0 <= hi < 256 -> swap16 (lo + 256 * hi) = hi + 256 * lo.
Proof.
  intros Hlo Hhi. unfold swap16.
  assert (Hr : Z.shiftr (lo + 256 * hi) 8 = hi).
  { rewrite Z.shiftr_div_pow2 by lia. change (2 ^ 8) with 256.
    rewrite Z.add_comm, Z.mul_comm, Z.div_add_l by lia.
    rewrite Z.div_small by lia. lia. }
  rewrite Hr, <- Z.add_nocarry_lor.
  - rewrite Z.shiftl_mul_pow2 by lia. change (2 ^ 8) with 256. unfold wrap16.
    replace ((lo + 256 * hi) * 256 + hi) with (hi + 256 * lo + hi * 65536) by lia.
    rewrite Z.mod_add by lia. apply Z.mod_small. lia.
  - apply Z.bits_inj'. intros n Hn. rewrite Z.land_spec, Z.bits_0.
    destruct (Z.lt_ge_cases n 8).
    + rewrite Z.shiftl_spec_low by lia. reflexivity.
    + rewrite (field_high_bits hi 8 n) by (change (2 ^ 8) with 256; lia).
      apply andb_false_r.
Qed.

(** X1. On a 16-bit word [swap16] exchanges the two bytes; the result is a
    16-bit word and swapping twice gives the word back. *)
Theorem swap16_round_trip (x : Z) :
  0 <= x < 65536 ->
  swap16 x = x mod 256 * 256 + x / 256
  /\ 0 <= swap16 x < 65536
  /\ swap16 (swap16 x) = x.
Proof.
  intros Hx.
  pose proof (Z.div_mod x 256 ltac:(lia)) as Hd.
  pose proof (Z.mod_pos_bound x 256 ltac:(lia)) as Hm.
  assert (Hq : 0 <= x / 256 < 256)
    by (split; [apply Z.div_pos | apply Z.div_lt_upper_bound]; lia).
  assert (Hs : swap16 x = x / 256 + 256 * (x mod 256)).
  { rewrite Hd at 1. rewrite (Z.add_comm (256 * _)). apply swap16_bytes; lia. }
  split; [lia |]. split; [lia |].
  rewrite Hs. rewrite swap16_bytes by lia. lia.
Qed.

Lemma swap16_round_trip_witness :
  swap16 0x3000 = 0x3000 mod 256 * 256 + 0x3000 / 256
  /\ 0 <= swap16 0x3000 < 65536
  /\ swap16 (swap16 0x3000) = 0x3000.
Proof. apply (swap16_round_trip 0x3000). lia. Defined.

(** ** Writing and reading memory *)

Lemma wrap16_idem x : wrap16 (wrap16 x) = wrap16 x.
Proof. unfold wrap16. apply Z.mod_mod. lia. Qed.

Lemma mem_write_ok a v m :
  Z.of_nat (length (memory m)) = 65535 -> wrap16 a <> 65535 ->
  mem_write a v m = Ok tt (poke (wrap16 a) (wrap16 v) m).
Proof.
  intros Hl Ha. pose proof (wrap16_range a). unfold mem_write.
  rewrite mem_set_ok by (assumption || lia). rewrite wrap16_idem. reflexivity.
Qed.

Lemma mem_read_cell a v m :
  wrap16 a <> MR_KBSR -> cell (wrap16 a) m = Some v -> mem_read a m = Ok v m.
Proof.
  intros Hk Hc. rewrite mem_read_wrap.
  apply mem_read_plain; [apply wrap16_range | assumption | assumption].
Qed.

(** X2. A write to any address but 0xFFFF returns and changes neither the
    registers nor the host; a read of the same address then returns the
    value written (as a 16-bit word) unless the address is the keyboard
    status, and a read of an other plain address returns what it did
    before the write. *)
Theorem mem_write_then_read (a v : Z) (m : machine) :
  wf m ->
  wrap16 a <> 65535 ->
  exists m',
    mem_write a v m = Ok tt m'
    /\ registers m' = registers m
    /\ world m' = world m
    /\ (wrap16 a <> MR_KBSR -> mem_read a m' = Ok (wrap16 v) m')
    /\ (forall b, wrap16 b <> wrap16 a -> wrap16 b <> MR_KBSR -> wrap16 b <> 65535 ->
        exists w, mem_read b m = Ok w m /\ mem_read b m' = Ok w m').
Proof.
  intros Hwf Ha. apply wf_mem_length in Hwf.
  pose proof (wrap16_range a) as Hra.
  exists (poke (wrap16 a) (wrap16 v) m).
  split; [apply mem_write_ok; assumption |].
  split; [reflexivity |]. split; [reflexivity |]. split.
  - intros Hk. apply mem_read_cell; [assumption |].
    apply cell_poke_eq; [assumption | lia].
  - intros b Hne Hk Hb. pose proof (wrap16_range b) as Hrb.
    destruct (mem_get_ok m (wrap16 b) Hwf ltac:(lia)) as (w & Hc & _).
    exists w. split; [apply mem_read_cell; assumption |].
    apply mem_read_cell; [assumption |].
    rewrite cell_poke_ne by lia. exact Hc.
Qed.

Lemma mem_write_then_read_witness :
  exists m', mem_write 0x4000 0xCAFE (boot quiet) = Ok tt m'
             /\ mem_read 0x4000 m' = Ok 0xCAFE m'.
Proof.
  destruct (mem_write_then_read 0x4000 0xCAFE (boot quiet)) as (m' & Hw & _ & _ & Hr & _).
  - vm_compute. reflexivity.
  - vm_compute. discriminate.
  - exists m'. split; [exact Hw |]. apply Hr. vm_compute. discriminate.
Defined.

Lemma low_bits_range x n : 0 <= n -> 0 <= Z.land x (Z.ones n) < 2 ^ n.
Proof.
  intros Hn. rewrite Z.land_ones by lia. apply Z.mod_pos_bound.
  apply Z.pow_pos_nonneg; lia.
Qed.

Lemma flag_bit_test instr n :
  0 <= n -> Z.land (Z.shiftr instr n) 1 = Z.b2z (Z.testbit instr n).
Proof.
  intros Hn. pose proof (sign_bit_test instr (n + 1) ltac:(lia)) as H.
  replace (n + 1 - 1) with n in H by lia. exact H.
Qed.

Lemma add_signExtend a f w :
  1 <= w <= 15 -> 0 <= f < 2 ^ w ->
  wrap16 (a + signExtend f w) = wrap16 (a + field_value f w).
Proof.
  intros Hw Hf. unfold field_value.
  destruct (Z.testbit f (w - 1)) eqn:Hb.
  - rewrite signExtend_neg by assumption. unfold wrap16.
    replace (a + (f + (65536 - 2 ^ w))) with (a + (f - 2 ^ w) + 1 * 65536) by lia.
    apply Z.mod_add. lia.
  - rewrite signExtend_pos by (lia || assumption). reflexivity.
Qed.

Lemma write_back_eq m r0 v :
  length (registers m) = 10%nat -> 0 <= r0 < 8 ->
  (set_reg r0 v;; updateFlgs r0) m
  = Ok tt (setr R_COND (flag_of (wrap16 v)) (setr r0 (wrap16 v) m)).
Proof.
  intros Hl Hr.
  rewrite (bind_Ok _ _ _ _ _ (set_reg_ok m r0 v Hl ltac:(lia))).
  rewrite updateFlgs_ok; rewrite ?regs_length_setr, ?reg_setr_eq by lia;
    first [reflexivity | assumption | apply wrap16_range].
Qed.

Lemma written_back_frame dr v m :
  length (registers m) = 10%nat -> 0 <= dr < 8 ->
  let m' := setr R_COND (flag_of v) (setr dr v m) in
  reg dr m' = v /\ same_registers_but dr m m'
  /\ memory m' = memory m /\ world m' = world m.
Proof.
  intros Hl Hr m'. unfold m'. split; [| split; [| split; reflexivity]].
  - rewrite reg_setr_ne by (unfold R_COND; lia). apply reg_setr_eq; [assumption | lia].
  - intros r Hr0 Hne Hc. rewrite reg_setr_ne by (unfold R_COND in *; lia).
    apply reg_setr_ne; lia.
Qed.

Ltac write_back_steps :=
  rewrite set_reg_ok by reg_index; cbv beta iota;
  rewrite updateFlgs_ok
    by (rewrite ?regs_length_setr, ?reg_setr_eq by reg_index;
        first [assumption | apply wrap16_range | lia]);
  rewrite reg_setr_eq by reg_index; reflexivity.

Lemma exec_ADD_eq instr m :
  length (registers m) = 10%nat ->
  exec_ADD instr m
  = Ok tt (let v := wrap16 (reg (Z.land (Z.shiftr instr 6) 7) m + operand2 instr m) in
           setr R_COND (flag_of v) (setr (Z.land (Z.shiftr instr 9) 7) v m)).
Proof.
  intros Hl. unfold exec_ADD, operand2. rewrite flag_bit_test by lia.
  pose proof (reg_field_range (Z.shiftr instr 9)) as Hr0.
  set (r0 := Z.land (Z.shiftr instr 9) 7) in *.
  destruct (Z.testbit instr 5); cbn [Z.b2z Z.eqb negb];
    straight_line; write_back_steps.
Qed.

Lemma exec_AND_eq instr m :
  length (registers m) = 10%nat ->
  exec_AND instr m
  = Ok tt (let v := wrap16 (Z.land (reg (Z.land (Z.shiftr instr 6) 7) m) (operand2 instr m)) in
           setr R_COND (flag_of v) (setr (Z.land (Z.shiftr instr 9) 7) v m)).
Proof.
  intros Hl. unfold exec_AND, operand2. rewrite flag_bit_test by lia.
  pose proof (reg_field_range (Z.shiftr instr 9)) as Hr0.
  set (r0 := Z.land (Z.shiftr instr 9) 7) in *.
  destruct (Z.testbit instr 5); cbn [Z.b2z Z.eqb negb];
    straight_line; write_back_steps.
Qed.

Lemma exec_NOT_eq instr m :
  length (registers m) = 10%nat ->
  exec_NOT instr m
  = Ok tt (let v := wrap16 (Z.lnot (reg (Z.land (Z.shiftr instr 6) 7) m)) in
           setr R_COND (flag_of v) (setr (Z.land (Z.shiftr instr 9) 7) v m)).
Proof.
  intros Hl. unfold exec_NOT.
  pose proof (reg_field_range (Z.shiftr instr 9)) as Hr0.
  set (r0 := Z.land (Z.shiftr instr 9) 7) in *.
  straight_line; write_back_steps.
Qed.

Lemma exec_LEA_eq instr m :
  length (registers m) = 10%nat ->
  exec_LEA instr m
  = Ok tt (let v := wrap16 (reg R_PC m + signExtend (Z.land instr 0x1FF) 9) in
           setr R_COND (flag_of v) (setr (Z.land (Z.shiftr instr 9) 7) v m)).
Proof.
  intros Hl. unfold exec_LEA.
  pose proof (reg_field_range (Z.shiftr instr 9)) as Hr0.
  set (r0 := Z.land (Z.shiftr instr 9) 7) in *.
  straight_line; write_back_steps.
Qed.

Lemma handler_continues (h : M unit) m m' :
  h m = Ok tt m' -> (h;; mret true) m = Ok true m'.
Proof. intros H. rewrite bind_unfold, H. reflexivity. Qed.

Lemma lnot_word v : 0 <= v < 65536 -> wrap16 (Z.lnot v) = 65535 - v.
Proof.
  intros Hv. unfold Z.lnot, wrap16.
  replace (Z.pred (- v)) with (65535 - v + (-1) * 65536) by lia.
  rewrite Z.mod_add by lia. apply Z.mod_small. lia.
Qed.

(** X3. ADD puts in DR the sum of SR1 and of the second operand modulo
    2^16, where the second operand is the 5-bit field read as a number in
    -16..15 when bit 5 is set and register SR2 otherwise; it always
    returns and changes no other register but the flags, no memory cell
    and nothing in the host. *)
Theorem add_wraps_around (instr : Z) (m : machine) :
  wf m ->
  Z.shiftr instr 12 = OP_ADD ->
  let dr := Z.land (Z.shiftr instr 9) 7 in
  let sr1 := Z.land (Z.shiftr instr 6) 7 in
  let operand := if Z.testbit instr 5
                 then field_value (Z.land instr 0x1F) 5
                 else reg (Z.land instr 0x7) m in
  exists m',
    execute instr m = Ok true m'
    /\ reg dr m' = (reg sr1 m + operand) mod 65536
    /\ same_registers_but dr m m'
    /\ memory m' = memory m
    /\ world m' = world m.
Proof.
  intros Hwf Hop dr sr1 operand. apply wf_regs_length in Hwf.
  pose proof (reg_field_range (Z.shiftr instr 9)) as Hdr. fold dr in Hdr.
  eexists. split.
  - dispatch Hop. apply handler_continues. apply exec_ADD_eq. assumption.
  - cbv zeta. fold dr sr1.
    assert (Hv : wrap16 (reg sr1 m + operand2 instr m) = (reg sr1 m + operand) mod 65536).
    { unfold operand2, operand. destruct (Z.testbit instr 5); [| reflexivity].
      apply add_signExtend; [lia |]. apply (low_bits_range instr 5). lia. }
    rewrite Hv. apply written_back_frame; assumption.
Qed.

Lemma add_wraps_around_witness :
  exists m', execute 0x1261 add_state = Ok true m' /\ reg 1 m' = 0x8000.
Proof.
  destruct (add_wraps_around 0x1261 add_state) as (m' & He & Hr & _).
  - vm_compute. reflexivity.
  - reflexivity.
  - exists m'. split; [exact He |]. vm_compute in Hr |- *. exact Hr.
Defined.

(** ** Branches, jumps and calls *)

Lemma exec_BR_eq instr m :
  length (registers m) = 10%nat ->
  exec_BR instr m
  = Ok tt (if Z.land (Z.land (Z.shiftr instr 9) 7) (reg R_COND m) =? 0
           then m
           else setr R_PC (wrap16 (reg R_PC m + signExtend (Z.land instr 0x1FF) 9)) m).
Proof.
  intros Hl. unfold exec_BR. straight_line.
  destruct (Z.land _ (reg R_COND m) =? 0); cbn [negb]; [reflexivity |].
  straight_line. rewrite set_reg_ok by reg_index. reflexivity.
Qed.

Lemma exec_JMP_eq instr m :
  length (registers m) = 10%nat ->
  exec_JMP instr m = Ok tt (setr R_PC (wrap16 (reg (Z.land (Z.shiftr instr 6) 7) m)) m).
Proof.
  intros Hl. unfold exec_JMP. straight_line. rewrite set_reg_ok by reg_index. reflexivity.
Qed.

(** X4. BR moves the program counter by the signed 9-bit offset, modulo
    2^16, exactly when a bit of its condition field is set in the flags
    register; no other register, no cell and nothing in the host changes.
    With a condition field of 0, or with the flags register still 0 as it
    is at boot, the state is left as it is. *)
Theorem branch_follows_flags (instr : Z) (m : machine) :
  wf m ->
  Z.shiftr instr 12 = OP_BR ->
  let nzp := Z.land (Z.shiftr instr 9) 7 in
  let target := (reg R_PC m + field_value (Z.land instr 0x1FF) 9) mod 65536 in
  exists m',
    execute instr m = Ok true m'
    /\ reg R_PC m' = (if Z.land nzp (reg R_COND m) =? 0 then reg R_PC m else target)
    /\ (forall r, 0 <= r -> r <> R_PC -> reg r m' = reg r m)
    /\ memory m' = memory m
    /\ world m' = world m
    /\ (nzp = 0 \/ reg R_COND m = 0 -> m' = m).
Proof.
  intros Hwf Hop nzp target.
  pose proof (wf_reg_word m R_PC Hwf) as Hpc. apply wf_regs_length in Hwf.
  eexists. split.
  - dispatch Hop. apply handler_continues. apply exec_BR_eq. assumption.
  - fold nzp.
    assert (Ht : wrap16 (reg R_PC m + signExtend (Z.land instr 511) 9) = target).
    { apply add_signExtend; [lia |]. apply (low_bits_range instr 9). lia. }
    rewrite Ht.
    destruct (Z.eqb_spec (Z.land nzp (reg R_COND m)) 0) as [Hz | Hnz].
    + repeat split; reflexivity.
    + split; [apply reg_setr_eq; [assumption | unfold R_PC; lia] |].
      split; [intros r Hr Hne; apply reg_setr_ne; unfold R_PC in *; lia |].
      split; [reflexivity |]. split; [reflexivity |].
      intros [H0 | H0]; exfalso; apply Hnz; rewrite H0;
        [reflexivity | apply Z.land_0_r].
Qed.

Lemma branch_follows_flags_witness :
  exists m', execute 0x0405 zero_flag_state = Ok true m' /\ reg R_PC m' = 0x3006.
Proof.
  destruct (branch_follows_flags 0x0405 zero_flag_state) as (m' & He & Hr & _).
  - vm_compute. reflexivity.
  - reflexivity.
  - exists m'. split; [exact He |]. vm_compute in Hr |- *. exact Hr.
Defined.

(** X5. A call by JSR followed by JMP R7 comes back: the call leaves in R7
    the program counter it started from (and, with bit 11 set, moves the
    program counter by the signed 11-bit offset), and the jump through R7
    restores that program counter; memory and host are as before. *)
Theorem call_then_return (call ret : Z) (m : machine) :
  wf m ->
  Z.shiftr call 12 = OP_JSR ->
  Z.shiftr ret 12 = OP_JMP ->
  Z.land (Z.shiftr ret 6) 7 = R_R7 ->
  exists m1 m2,
    execute call m = Ok true m1
    /\ reg R_R7 m1 = reg R_PC m
    /\ (Z.testbit call 11 = true ->
        reg R_PC m1 = (reg R_PC m + field_value (Z.land call 0x7FF) 11) mod 65536)
    /\ execute ret m1 = Ok true m2
    /\ reg R_PC m2 = reg R_PC m
    /\ memory m2 = memory m
    /\ world m2 = world m.
Proof.
  intros Hwf Hcall Hret Hr7.
  pose proof (wf_reg_word m R_PC Hwf) as Hpc. apply wf_regs_length in Hwf.
  pose proof (exec_JSR_adds call m Hwf) as Hjsr. cbv zeta in Hjsr.
  rewrite (wrap16_small (reg R_PC m)) in Hjsr by assumption.
  set (m7 := setr R_R7 (reg R_PC m) m) in *.
  set (pc1 := wrap16 _) in Hjsr.
  assert (H1 : length (registers (setr R_PC pc1 m7)) = 10%nat)
    by (unfold m7; rewrite !regs_length_setr; assumption).
  assert (HR7 : reg R_R7 (setr R_PC pc1 m7) = reg R_PC m).
  { rewrite reg_setr_ne by (unfold R_PC, R_R7; lia).
    unfold m7. apply reg_setr_eq; [assumption | unfold R_R7; lia]. }
  exists (setr R_PC pc1 m7), (setr R_PC (wrap16 (reg R_PC m)) (setr R_PC pc1 m7)).
  split; [dispatch Hcall; apply handler_continues; exact Hjsr |].
  split; [exact HR7 |]. split.
  - intros Hb. rewrite reg_setr_eq by (unfold m7; rewrite ?regs_length_setr; (assumption || (unfold R_PC; lia))).
    unfold pc1. rewrite Hb. apply add_signExtend; [lia |].
    apply (low_bits_range call 11). lia.
  - split.
    + dispatch Hret. apply handler_continues.
      rewrite exec_JMP_eq by assumption. rewrite Hr7, HR7. reflexivity.
    + split; [| split; reflexivity].
      rewrite reg_setr_eq by (assumption || (unfold R_PC; lia)).
      apply wrap16_small. assumption.
Qed.

Lemma call_then_return_witness :
  exists m1 m2,
    execute 0x4805 at_3001 = Ok true m1
    /\ execute 0xC1C0 m1 = Ok true m2
    /\ reg R_PC m2 = 0x3001.
Proof.
  destruct (call_then_return 0x4805 0xC1C0 at_3001)
    as (m1 & m2 & H1 & _ & _ & H2 & Hr & _).
  - vm_compute. reflexivity.
  - reflexivity.
  - reflexivity.
  - reflexivity.
  - exists m1, m2. split; [exact H1 |]. split; [exact H2 |].
    vm_compute in Hr |- *. exact Hr.
Defined.

(** ** Loads and stores *)

Lemma wf_cell_word m a v : wf m -> cell a m = Some v -> 0 <= v < 65536.
Proof.
  intros H Hc. apply wf_parts in H. destruct H as (_ & _ & _ & H).
  apply is_word_range. rewrite forallb_forall in H. apply H.
  apply list_elem_of_In. eapply list_elem_of_lookup_2. exact Hc.
Qed.

(** The steps shared by the three loads once the value is read. *)
Lemma load_steps (k : Z -> M unit) a v dr m :
  length (registers m) = 10%nat -> 0 <= dr < 8 ->
  wrap16 a <> MR_KBSR -> cell (wrap16 a) m = Some v ->
  (forall x, k x = (set_reg dr x;; updateFlgs dr)) ->
  (mem_read a ≫= k) m
  = Ok tt (setr R_COND (flag_of (wrap16 v)) (setr dr (wrap16 v) m)).
Proof.
  intros Hl Hdr Hk Hc Hkx.
  rewrite bind_unfold, (mem_read_cell a v m Hk Hc), Hkx.
  apply write_back_eq; assumption.
Qed.

Lemma exec_LD_eq instr v m :
  length (registers m) = 10%nat ->
  let a := wrap16 (reg R_PC m + signExtend (Z.land instr 0x1FF) 9) in
  a <> MR_KBSR -> cell a m = Some v ->
  exec_LD instr m
  = Ok tt (setr R_COND (flag_of (wrap16 v)) (setr (Z.land (Z.shiftr instr 9) 7) (wrap16 v) m)).
Proof.
  intros Hl a Hk Hc. unfold exec_LD.
  pose proof (reg_field_range (Z.shiftr instr 9)) as Hr0.
  rewrite bind_unfold, get_reg_ok by reg_index. cbv beta iota.
  apply load_steps; assumption || reflexivity.
Qed.

Lemma exec_LDR_eq instr v m :
  length (registers m) = 10%nat ->
  let a := wrap16 (reg (Z.land (Z.shiftr instr 6) 7) m + signExtend (Z.land instr 0x3F) 6) in
  a <> MR_KBSR -> cell a m = Some v ->
  exec_LDR instr m
  = Ok tt (setr R_COND (flag_of (wrap16 v)) (setr (Z.land (Z.shiftr instr 9) 7) (wrap16 v) m)).
Proof.
  intros Hl a Hk Hc. unfold exec_LDR.
  pose proof (reg_field_range (Z.shiftr instr 9)) as Hr0.
  rewrite bind_unfold, get_reg_ok by reg_index. cbv beta iota.
  apply load_steps; assumption || reflexivity.
Qed.

Lemma exec_LDI_eq instr p v m :
  length (registers m) = 10%nat ->
  let a := wrap16 (reg R_PC m + signExtend (Z.land instr 0x1FF) 9) in
  a <> MR_KBSR -> cell a m = Some p ->
  wrap16 p <> MR_KBSR -> cell (wrap16 p) m = Some v ->
  exec_LDI instr m
  = Ok tt (setr R_COND (flag_of (wrap16 v)) (setr (Z.land (Z.shiftr instr 9) 7) (wrap16 v) m)).
Proof.
  intros Hl a Hk Hc Hkp Hcp. unfold exec_LDI.
  pose proof (reg_field_range (Z.shiftr instr 9)) as Hr0.
  rewrite bind_unfold, get_reg_ok by reg_index. cbv beta iota.
  rewrite bind_unfold, (mem_read_cell _ p m) by assumption. cbv beta iota.
  apply load_steps; assumption || reflexivity.
Qed.

Lemma exec_ST_eq instr m :
  wf m ->
  let a := wrap16 (reg R_PC m + signExtend (Z.land instr 0x1FF) 9) in
  a <> 65535 ->
  exec_ST instr m = Ok tt (poke a (reg (Z.land (Z.shiftr instr 9) 7) m) m).
Proof.
  intros Hwf a Ha. unfold exec_ST.
  pose proof (wf_reg_word m (Z.land (Z.shiftr instr 9) 7) Hwf) as Hv.
  pose proof (wf_mem_length m Hwf) as Hm. apply wf_regs_length in Hwf.
  straight_line. rewrite mem_write_ok by assumption.
  fold a. rewrite (wrap16_small (reg _ m)) by assumption. reflexivity.
Qed.

Lemma exec_STR_eq instr m :
  wf m ->
  let a := wrap16 (reg (Z.land (Z.shiftr instr 6) 7) m + signExtend (Z.land instr 0x3F) 6) in
  a <> 65535 ->
  exec_STR instr m = Ok tt (poke a (reg (Z.land (Z.shiftr instr 9) 7) m) m).
Proof.
  intros Hwf a Ha. unfold exec_STR.
  pose proof (wf_reg_word m (Z.land (Z.shiftr instr 9) 7) Hwf) as Hv.
  pose proof (wf_mem_length m Hwf) as Hm. apply wf_regs_length in Hwf.
  straight_line. rewrite mem_write_ok by assumption.
  fold a. rewrite (wrap16_small (reg _ m)) by assumption. reflexivity.
Qed.

Lemma stored_at_poke a v m :
  Z.of_nat (length (memory m)) = 65535 -> 0 <= a < 65535 -> stored_at a v m (poke a v m).
Proof.
  intros Hl Ha. split; [apply cell_poke_eq; assumption |].
  split; [intros b Hb Hne; apply cell_poke_ne; lia |]. split; reflexivity.
Qed.

(** X6. ST then LD with the same offset, at the same program counter: the
    store changes the one cell at PC + offset, which then holds the source
    register, and the load brings that value into its destination
    register, when the cell is neither the keyboard status nor the
    address 0xFFFF. *)
Theorem st_then_ld (st ld : Z) (m : machine) :
  wf m ->
  Z.shiftr st 12 = OP_ST ->
  Z.shiftr ld 12 = OP_LD ->
  Z.land st 0x1FF = Z.land ld 0x1FF ->
  let a := (reg R_PC m + field_value (Z.land st 0x1FF) 9) mod 65536 in
  let sr := Z.land (Z.shiftr st 9) 7 in
  let dr := Z.land (Z.shiftr ld 9) 7 in
  a <> 65535 -> a <> MR_KBSR ->
  exists m1 m2,
    execute st m = Ok true m1
    /\ stored_at a (reg sr m) m m1
    /\ execute ld m1 = Ok true m2
    /\ reg dr m2 = reg sr m
    /\ same_registers_but dr m m2
    /\ memory m2 = memory m1.
Proof.
  intros Hwf Hst Hld Hoff a sr dr Ha Hk.
  pose proof (wf_reg_word m sr Hwf) as Hv.
  pose proof (wf_mem_length m Hwf) as Hm. pose proof (wf_regs_length m Hwf) as Hl.
  pose proof (reg_field_range (Z.shiftr ld 9)) as Hdr. fold dr in Hdr.
  assert (Hst_a : wrap16 (reg R_PC m + signExtend (Z.land st 511) 9) = a).
  { apply add_signExtend; [lia |]. apply (low_bits_range st 9). lia. }
  assert (Hra : 0 <= a < 65535).
  { pose proof (Z.mod_pos_bound (reg R_PC m + field_value (Z.land st 0x1FF) 9) 65536 ltac:(lia)).
    fold a in H. lia. }
  pose proof (exec_ST_eq st m Hwf) as Est. cbv zeta in Est.
  rewrite Hst_a in Est. specialize (Est Ha). fold sr in Est.
  set (m1 := poke a (reg sr m) m) in *.
  pose proof (stored_at_poke a (reg sr m) m Hm Hra) as Hs. fold m1 in Hs.
  pose proof (exec_LD_eq ld (reg sr m) m1 Hl) as Eld. cbv zeta in Eld.
  change (reg R_PC m1) with (reg R_PC m) in Eld.
  rewrite <- Hoff, Hst_a in Eld. specialize (Eld Hk (proj1 Hs)). fold dr in Eld.
  rewrite (wrap16_small (reg sr m)) in Eld by assumption.
  eexists m1, _. split; [dispatch Hst; apply handler_continues; exact Est |].
  split; [exact Hs |].
  split; [dispatch Hld; apply handler_continues; exact Eld |].
  destruct (written_back_frame dr (reg sr m) m1 Hl Hdr) as (H1 & H2 & H3 & _).
  split; [exact H1 |]. split; [exact H2 | exact H3].
Qed.

Lemma st_then_ld_witness :
  exists m1 m2,
    execute 0x3205 store_state = Ok true m1
    /\ execute 0x2405 m1 = Ok true m2
    /\ reg 2 m2 = 0x1234.
Proof.
  destruct (st_then_ld 0x3205 0x2405 store_state)
    as (m1 & m2 & H1 & _ & H2 & Hr & _).
  - vm_compute. reflexivity.
  - reflexivity.
  - reflexivity.
  - reflexivity.
  - vm_compute. discriminate.
  - vm_compute. discriminate.
  - exists m1, m2. split; [exact H1 |]. split; [exact H2 |].
    vm_compute in Hr |- *. exact Hr.
Defined.

(** X7. STR then LDR with the same base register and offset: the store
    changes the one cell at base + offset, and the load brings the stored
    value into its destination register, when the cell is neither the
    keyboard status nor the address 0xFFFF. *)
Theorem str_then_ldr (st ld : Z) (m : machine) :
  wf m ->
  Z.shiftr st 12 = OP_STR ->
  Z.shiftr ld 12 = OP_LDR ->
  Z.land (Z.shiftr st 6) 7 = Z.land (Z.shiftr ld 6) 7 ->
  Z.land st 0x3F = Z.land ld 0x3F ->
  let base := Z.land (Z.shiftr st 6) 7 in
  let a := (reg base m + field_value (Z.land st 0x3F) 6) mod 65536 in
  let sr := Z.land (Z.shiftr st 9) 7 in
  let dr := Z.land (Z.shiftr ld 9) 7 in
  a <> 65535 -> a <> MR_KBSR ->
  exists m1 m2,
    execute st m = Ok true m1
    /\ stored_at a (reg sr m) m m1
    /\ execute ld m1 = Ok true m2
    /\ reg dr m2 = reg sr m
    /\ same_registers_but dr m m2
    /\ memory m2 = memory m1.
Proof.
  intros Hwf Hst Hld Hbase Hoff base a sr dr Ha Hk.
  pose proof (wf_reg_word m sr Hwf) as Hv.
  pose proof (wf_mem_length m Hwf) as Hm. pose proof (wf_regs_length m Hwf) as Hl.
  pose proof (reg_field_range (Z.shiftr ld 9)) as Hdr. fold dr in Hdr.
  assert (Hst_a : wrap16 (reg base m + signExtend (Z.land st 63) 6) = a).
  { apply add_signExtend; [lia |]. apply (low_bits_range st 6). lia. }
  assert (Hra : 0 <= a < 65535).
  { pose proof (Z.mod_pos_bound (reg base m + field_value (Z.land st 0x3F) 6) 65536 ltac:(lia)).
    fold a in H. lia. }
  pose proof (exec_STR_eq st m Hwf) as Est. cbv zeta in Est. fold base in Est.
  rewrite Hst_a in Est. specialize (Est Ha). fold sr in Est.
  set (m1 := poke a (reg sr m) m) in *.
  pose proof (stored_at_poke a (reg sr m) m Hm Hra) as Hs. fold m1 in Hs.
  pose proof (exec_LDR_eq ld (reg sr m) m1 Hl) as Eld. cbv zeta in Eld.
  rewrite <- Hbase, <- Hoff in Eld. fold base in Eld.
  change (reg base m1) with (reg base m) in Eld.
  rewrite Hst_a in Eld. specialize (Eld Hk (proj1 Hs)). fold dr in Eld.
  rewrite (wrap16_small (reg sr m)) in Eld by assumption.
  eexists m1, _. split; [dispatch Hst; apply handler_continues; exact Est |].
  split; [exact Hs |].
  split; [dispatch Hld; apply handler_continues; exact Eld |].
  destruct (written_back_frame dr (reg sr m) m1 Hl Hdr) as (H1 & H2 & H3 & _).
  split; [exact H1 |]. split; [exact H2 | exact H3].
Qed.

Lemma str_then_ldr_witness :
  exists m1 m2,
    execute 0x7283 base_state = Ok true m1
    /\ execute 0x6683 m1 = Ok true m2
    /\ reg 3 m2 = 0xBEEF.
Proof.
  destruct (str_then_ldr 0x7283 0x6683 base_state)
    as (m1 & m2 & H1 & _ & H2 & Hr & _).
  - vm_compute. reflexivity.
  - reflexivity.
  - reflexivity.
  - reflexivity.
  - reflexivity.
  - vm_compute. discriminate.
  - vm_compute. discriminate.
  - exists m1, m2. split; [exact H1 |]. split; [exact H2 |].
    vm_compute in Hr |- *. exact Hr.
Defined.

(** X8. LDI loads through a pointer: with the cell at PC + offset holding
    [p] and the cell at [p] holding [v], the destination register gets
    [v], the flags describe it, and nothing else changes (neither address
    being the keyboard status). *)
Theorem ldi_reads_through_pointer (instr p v : Z) (m : machine) :
  wf m ->
  Z.shiftr instr 12 = OP_LDI ->
  let a := (reg R_PC m + field_value (Z.land instr 0x1FF) 9) mod 65536 in
  let dr := Z.land (Z.shiftr instr 9) 7 in
  a <> MR_KBSR -> cell a m = Some p ->
  p <> MR_KBSR -> cell p m = Some v ->
  exists m',
    execute instr m = Ok true m'
    /\ reg dr m' = v
    /\ flags_describe dr m'
    /\ same_registers_but dr m m'
    /\ memory m' = memory m
    /\ world m' = world m.
Proof.
  intros Hwf Hop a dr Hk Hc Hkp Hcp.
  pose proof (wf_cell_word m a p Hwf Hc) as Hp.
  pose proof (wf_cell_word m p v Hwf Hcp) as Hv.
  pose proof (wf_regs_length m Hwf) as Hl.
  pose proof (reg_field_range (Z.shiftr instr 9)) as Hdr. fold dr in Hdr.
  assert (Ha : wrap16 (reg R_PC m + signExtend (Z.land instr 511) 9) = a).
  { apply add_signExtend; [lia |]. apply (low_bits_range instr 9). lia. }
  pose proof (exec_LDI_eq instr p v m Hl) as E. cbv zeta in E.
  rewrite Ha, (wrap16_small p), (wrap16_small v) in E by assumption.
  specialize (E Hk Hc Hkp Hcp). fold dr in E.
  eexists. split; [dispatch Hop; apply handler_continues; exact E |].
  destruct (written_back_frame dr v m Hl Hdr) as (H1 & H2 & H3 & H4).
  split; [exact H1 |]. split; [apply flag_of_describes; assumption |].
  repeat split; assumption.
Qed.

Lemma ldi_reads_through_pointer_witness :
  exists m', execute 0xA205 pointer_state = Ok true m' /\ reg 1 m' = 0x00FF.
Proof.
  destruct (ldi_reads_through_pointer 0xA205 0x4000 0x00FF pointer_state)
    as (m' & He & Hr & _).
  - vm_compute. reflexivity.
  - reflexivity.
  - vm_compute. discriminate.
  - vm_compute. reflexivity.
  - vm_compute. discriminate.
  - vm_compute. reflexivity.
  - exists m'. split; [exact He |]. vm_compute in Hr |- *. exact Hr.
Defined.

(** ** Fetch and the traps *)

Lemma fetch_plain w m :
  wf m ->
  reg R_PC m <> MR_KBSR -> cell (reg R_PC m) m = Some w ->
  fetch m = Ok w (setr R_PC (wrap16 (reg R_PC m + 1)) m).
Proof.
  intros Hwf Hk Hc. pose proof (wf_reg_word m R_PC Hwf) as Hpc.
  apply wf_regs_length in Hwf. unfold fetch.
  straight_line. rewrite set_reg_ok by reg_index. cbv beta iota.
  apply mem_read_cell; rewrite wrap16_small by assumption; assumption.
Qed.

Lemma cycle_plain w m :
  wf m ->
  reg R_PC m <> MR_KBSR -> cell (reg R_PC m) m = Some w ->
  cycle m = execute w (setr R_PC (wrap16 (reg R_PC m + 1)) m).
Proof.
  intros Hwf Hk Hc. unfold cycle.
  rewrite bind_unfold, (fetch_plain w m Hwf Hk Hc). reflexivity.
Qed.

(** X9. When the instruction at the program counter is TRAP HALT the loop
    ends in that cycle, whatever fuel is left: the completion message
    and a flush are written, the program counter is one further, and the
    other registers and memory are as before. *)
Theorem halt_ends_the_run (w : Z) (m : machine) (fuel : nat) :
  wf m ->
  reg R_PC m <> MR_KBSR -> cell (reg R_PC m) m = Some w ->
  Z.shiftr w 12 = OP_TRAP -> Z.land w 0xFF = TRAP_HALT ->
  exists m',
    run (S fuel) m = Ok tt m'
    /\ trace (world m') = trace (world m) ++ [EvPrint ("Done!" ++ newline); EvFlush]
    /\ reg R_PC m' = (reg R_PC m + 1) mod 65536
    /\ (forall r, 0 <= r -> r <> R_PC -> reg r m' = reg r m)
    /\ memory m' = memory m.
Proof.
  intros Hwf Hk Hc Hop Hv. pose proof (wf_regs_length m Hwf) as Hl.
  eexists. split.
  - cbn [run]. rewrite bind_unfold, (cycle_plain w m Hwf Hk Hc).
    dispatch Hop. vector Hv. io_steps. reflexivity.
  - split; [cbn [world on_world emit trace]; rewrite <- app_assoc; reflexivity |].
    split; [apply reg_setr_eq; [assumption | unfold R_PC; lia] |].
    split; [| reflexivity].
    intros r Hr Hne. change (reg r (setr R_PC (wrap16 (reg R_PC m + 1)) m) = reg r m).
    apply reg_setr_ne; unfold R_PC in *; lia.
Qed.

Lemma halt_ends_the_run_witness :
  exists m', run 3 halt_state = Ok tt m' /\ reg R_PC m' = 0x3001.
Proof.
  destruct (halt_ends_the_run 0xF025 halt_state 2) as (m' & Hr & _ & Hpc & _).
  - vm_compute. reflexivity.
  - vm_compute. discriminate.
  - vm_compute. reflexivity.
  - reflexivity.
  - reflexivity.
  - exists m'. split; [exact Hr |]. vm_compute in Hpc |- *. exact Hpc.
Defined.

(** X10. When the instruction at the program counter has one of the two
    reserved opcodes (RTI, RES) the process aborts in that cycle: memory
    and the registers but the program counter are as before, and nothing
    is written to the host, so the terminal mode is not restored. *)
Theorem illegal_opcode_aborts (w : Z) (m : machine) (fuel : nat) :
  wf m ->
  reg R_PC m <> MR_KBSR -> cell (reg R_PC m) m = Some w ->
  Z.shiftr w 12 = OP_RTI \/ Z.shiftr w 12 = OP_RES ->
  exists m',
    run (S fuel) m = Abort m'
    /\ world m' = world m
    /\ memory m' = memory m
    /\ (forall r, 0 <= r -> r <> R_PC -> reg r m' = reg r m).
Proof.
  intros Hwf Hk Hc Hop. pose proof (wf_regs_length m Hwf) as Hl.
  exists (setr R_PC (wrap16 (reg R_PC m + 1)) m). split.
  - cbn [run]. rewrite bind_unfold, (cycle_plain w m Hwf Hk Hc).
    rewrite reserved_opcode_aborts by tauto. reflexivity.
  - split; [reflexivity |]. split; [reflexivity |].
    intros r Hr Hne. apply reg_setr_ne; unfold R_PC in *; lia.
Qed.

Lemma illegal_opcode_aborts_witness :
  exists m', run 3 rti_state = Abort m' /\ world m' = world rti_state.
Proof.
  destruct (illegal_opcode_aborts 0x8000 rti_state 2) as (m' & Hr & Hw & _).
  - vm_compute. reflexivity.
  - vm_compute. discriminate.
  - vm_compute. reflexivity.
  - left. reflexivity.
  - exists m'. split; [exact Hr | exact Hw].
Defined.

(** X11. TRAP OUT writes the low byte of R0, then flushes; memory, registers
    and input are as before. *)
Theorem out_writes_low_byte (instr : Z) (m : machine) :
  wf m ->
  Z.shiftr instr 12 = OP_TRAP -> Z.land instr 0xFF = TRAP_OUT ->
  exists m',
    execute instr m = Ok true m'
    /\ only_output m m' [EvPutc (reg R_R0 m mod 256); EvFlush].
Proof.
  intros Hwf Hop Hv. apply wf_regs_length in Hwf.
  eexists. split.
  - dispatch Hop. vector Hv.
    rewrite bind_unfold, get_reg_ok by reg_index. io_steps.
    rewrite uchar_of_char, on_world_emit. reflexivity.
  - apply only_output_emit.
Qed.

Lemma out_writes_low_byte_witness :
  exists m', execute 0xF021 out_state = Ok true m'
             /\ only_output out_state m' [EvPutc 0x41; EvFlush].
Proof.
  destruct (out_writes_low_byte 0xF021 out_state) as (m' & He & Ho).
  - vm_compute. reflexivity.
  - reflexivity.
  - reflexivity.
  - exists m'. split; [exact He | exact Ho].
Defined.

Lemma only_R0_setr v m m0 :
  registers m0 = registers m -> memory m0 = memory m ->
  length (registers m) = 10%nat -> only_R0 v m (setr R_R0 v m0).
Proof.
  intros Hr Hm Hl.
  split; [apply reg_setr_eq; [rewrite Hr; exact Hl | unfold R_R0; lia] |].
  split; [| exact Hm].
  intros r Hr0. rewrite reg_setr_ne by (unfold R_R0; lia).
  unfold reg. rewrite Hr. reflexivity.
Qed.

(** X12. With a character [c] waiting on the input, GETC stores [c] in R0
    and writes nothing; IN writes the prompt, echoes the character and
    stores it through [char], so that a character of 128 or more arrives
    in R0 as 0xFF00 + [c].  Neither changes another register, the flags
    included, nor memory, and the character is consumed. *)
Theorem input_traps_store_the_character (instr c : Z) (rest : list Z) (m : machine) :
  wf m ->
  Z.shiftr instr 12 = OP_TRAP ->
  stdin (world m) = c :: rest -> 0 <= c < 256 ->
  (Z.land instr 0xFF = TRAP_GETC ->
   exists m', execute instr m = Ok true m'
              /\ only_R0 c m m'
              /\ stdin (world m') = rest
              /\ trace (world m') = trace (world m) ++ [EvGetchar c])
  /\ (Z.land instr 0xFF = TRAP_IN ->
      exists m', execute instr m = Ok true m'
                 /\ only_R0 (if c <? 128 then c else 0xFF00 + c) m m'
                 /\ stdin (world m') = rest
                 /\ trace (world m')
                    = trace (world m) ++ [EvPrint " "; EvGetchar c; EvPutc c]).
Proof.
  intros Hwf Hop Hin Hc. apply wf_regs_length in Hwf.
  assert (Hn : next_char (world m) = c)
    by (unfold next_char; rewrite Hin; apply Z.mod_small; assumption).
  split; intros Hv; dispatch Hop; vector Hv; io_steps;
    (rewrite set_reg_ok by (exact Hwf || (unfold R_R0; lia))); cbv beta iota.
  - rewrite Hn. eexists. split; [reflexivity |].
    rewrite (wrap16_small c) by lia.
    split; [apply only_R0_setr; [reflexivity | reflexivity | assumption] |].
    cbn [world setr on_world consumed log stdin trace]. rewrite Hin, Hn.
    split; reflexivity.
  - change (next_char (world (on_world (emit [EvPrint " "]) m))) with (next_char (world m)).
    rewrite Hn. eexists. split; [reflexivity |].
    assert (Hw : wrap16 (to_char c) = if c <? 128 then c else 0xFF00 + c).
    { unfold to_char, wrap16. destruct (Z.ltb_spec c 128).
      - rewrite (Z.mod_small (c + 128)) by lia.
        replace (c + 128 - 128) with c by lia. apply Z.mod_small. lia.
      - replace (c + 128) with (c - 128 + 1 * 256) by lia.
        rewrite Z.mod_add, (Z.mod_small (c - 128)) by lia.
        replace (c - 128 - 128) with (65280 + c + (-1) * 65536) by lia.
        rewrite Z.mod_add by lia. apply Z.mod_small. lia. }
    rewrite Hw. split; [apply only_R0_setr; [reflexivity | reflexivity | assumption] |].
    cbn [world setr on_world consumed log emit stdin trace]. rewrite Hin.
    change (next_char (emit [EvPrint " "] (world m))) with (next_char (world m)).
    rewrite Hn. split; [reflexivity |].
    rewrite uchar_of_char, (Z.mod_small c) by lia.
    rewrite <- !app_assoc. reflexivity.
Qed.

Lemma input_traps_store_the_character_witness :
  (exists m', execute 0xF020 (boot accent) = Ok true m' /\ only_R0 0x00E9 (boot accent) m')
  /\ (exists m', execute 0xF023 (boot accent) = Ok true m' /\ only_R0 0xFFE9 (boot accent) m').
Proof.
  destruct (input_traps_store_the_character 0xF020 0xE9 [] (boot accent)) as [Hgetc _];
    [vm_compute; reflexivity | reflexivity | reflexivity | lia |].
  destruct (input_traps_store_the_character 0xF023 0xE9 [] (boot accent)) as [_ Hin];
    [vm_compute; reflexivity | reflexivity | reflexivity | lia |].
  split.
  - destruct Hgetc as (m' & He & Hr & _); [reflexivity |].
    exists m'. split; [exact He | exact Hr].
  - destruct Hin as (m' & He & Hr & _); [reflexivity |].
    exists m'. split; [exact He | exact Hr].
Defined.

(** ** The image loader *)

Lemma pair_induction (P : list Z -> Prop) :
  P [] -> (forall b, P [b]) -> (forall b0 b1 rest, P rest -> P (b0 :: b1 :: rest)) ->
  forall l, P l.
Proof.
  intros H0 H1 H2 l.
  assert (H : P l /\ forall b, P (b :: l)); [| tauto].
  induction l as [| b l [IH1 IH2]]; [split; [exact H0 | exact H1] |].
  split; [apply IH2 |]. intros b'. apply H2. exact IH1.
Qed.

Lemma swap_le_words bytes :
  Forall is_byte bytes -> swap16 <$> le_words bytes = be_words bytes.
Proof.
  induction bytes as [| b | b0 b1 rest IH] using pair_induction; intros Hb;
    [reflexivity | reflexivity |].
  apply Forall_cons in Hb as [H0 Hb]. apply Forall_cons in Hb as [H1 Hb].
  unfold le_words, be_words in *. cbn [words_of fmap list_fmap].
  cbn [fmap] in IH. rewrite IH by assumption.
  rewrite swap16_bytes by assumption. f_equal. lia.
Qed.

Lemma le_words_are_words bytes :
  Forall is_byte bytes -> Forall (fun w => 0 <= w < 65536) (le_words bytes).
Proof.
  induction bytes as [| b | b0 b1 rest IH] using pair_induction; intros Hb;
    [constructor | constructor |].
  apply Forall_cons in Hb as [H0 Hb]. apply Forall_cons in Hb as [H1 Hb].
  unfold le_words in *. cbn [words_of]. constructor; [unfold is_byte in *; lia | auto].
Qed.

Lemma trailing_byte_pair b0 b1 rest :
  trailing_byte (b0 :: b1 :: rest) = trailing_byte rest.
Proof.
  unfold trailing_byte. cbn [length].
  change (Nat.odd (S (S (length rest)))) with (Nat.odd (length rest)).
  destruct rest; reflexivity.
Qed.

Lemma words_of_length f g bytes : length (words_of f bytes) = length (words_of g bytes).
Proof.
  induction bytes as [| b | b0 b1 rest IH] using pair_induction;
    [reflexivity | reflexivity |].
  cbn [words_of length]. rewrite IH. reflexivity.
Qed.

Lemma partly_read_pair n b0 b1 rest c :
  partly_read (S n) (b0 :: b1 :: rest) c = partly_read n rest c.
Proof.
  unfold partly_read. rewrite trailing_byte_pair. reflexivity.
Qed.

Lemma land_high_byte w : Z.land w 0xFF00 = 256 * Z.land (Z.shiftr w 8) 0xFF.
Proof.
  change 0xFF00 with (Z.shiftl 0xFF 8). rewrite Z.mul_comm.
  change 256 with (2 ^ 8). rewrite <- Z.shiftl_mul_pow2 by lia.
  apply Z.bits_inj'. intros n Hn. rewrite Z.land_spec.
  destruct (Z_lt_le_dec n 8) as [Hlt | Hge].
  - rewrite !Z.shiftl_spec_low by lia. apply andb_false_r.
  - rewrite !Z.shiftl_spec by lia. rewrite Z.land_spec, Z.shiftr_spec by lia.
    f_equal. f_equal. lia.
Qed.

Lemma low_byte_word w b : is_byte b -> 0 <= Z.land w 0xFF00 + b < 65536.
Proof.
  intros Hb. unfold is_byte in Hb. rewrite land_high_byte.
  pose proof (low_bits_range (Z.shiftr w 8) 8 ltac:(lia)) as H.
  change (Z.ones 8) with 0xFF in H. change (2 ^ 8) with 256 in H. lia.
Qed.

(** The first loop: the words read land in the cells from [p] on, first
    byte low; a trailing odd byte lands in the low half of the cell after
    them when the buffer has room for it. *)
Lemma fread_words_cells n : forall bytes p m,
  Z.of_nat (length (memory m)) = 65535 -> 0 <= p -> p + Z.of_nat n <= 65535 ->
  Forall is_byte bytes ->
  let ws := take n (le_words bytes) in
  let next := p + Z.of_nat (length ws) in
  exists m',
    fread_words p n bytes m = Ok (length ws) m'
    /\ same_but_memory m m'
    /\ (forall i, (i < length ws)%nat -> cell (p + Z.of_nat i) m' = ws !! i)
    /\ (forall a, 0 <= a -> a < p \/ next < a -> cell a m' = cell a m)
    /\ cell next m' = partly_read n bytes (cell next m).
Proof.
  induction n as [| n IH]; intros bytes p m Hl Hp Hn Hb ws next.
  - exists m. subst next. replace ws with (@nil Z) by reflexivity. cbn [length].
    split; [destruct bytes as [| ? [| ? ?]]; reflexivity |].
    split; [apply same_but_memory_refl |].
    split; [intros i Hi; lia |]. split; [reflexivity |].
    unfold partly_read. destruct (trailing_byte bytes); reflexivity.
  - destruct bytes as [| b0 [| b1 rest]].
    + exists m. subst next. replace ws with (@nil Z) by reflexivity. cbn [length].
      split; [reflexivity |]. split; [apply same_but_memory_refl |].
      split; [intros i Hi; lia |]. split; reflexivity.
    + subst next. replace ws with (@nil Z) by reflexivity. cbn [length].
      replace (p + Z.of_nat 0) with p by lia.
      apply Forall_cons in Hb as [H0 _].
      destruct (mem_get_ok m p Hl ltac:(lia)) as (w & Hc & Hw).
      pose proof (low_byte_word w b0 H0) as Hrange.
      exists (poke p (Z.land w 0xFF00 + b0) m).
      split.
      { cbn [fread_words]. rewrite bind_unfold, Hw.
        rewrite bind_unfold, mem_set_ok by (assumption || lia).
        unfold to_uchar. unfold is_byte in H0. rewrite (Z.mod_small b0) by lia.
        rewrite wrap16_small by exact Hrange. reflexivity. }
      split; [apply same_but_memory_poke |].
      split; [intros i Hi; lia |].
      split; [intros a Ha Hr; apply cell_poke_ne; lia |].
      rewrite cell_poke_eq by (assumption || lia). rewrite Hc. reflexivity.
    + apply Forall_cons in Hb as [H0 Hb]. apply Forall_cons in Hb as [H1 Hb].
      unfold is_byte in H0, H1.
      set (w := b0 + 256 * b1).
      assert (Hw : wrap16 (to_uchar b0 + 256 * to_uchar b1) = w).
      { unfold to_uchar. rewrite !Z.mod_small by lia. apply wrap16_small. unfold w. lia. }
      destruct (IH rest (p + 1) (poke p w m)) as (m' & Hrun & Hs & Hin & Hout & Hnext);
        [rewrite mem_length_poke; assumption | lia | lia | assumption |].
      cbv zeta in Hrun, Hin, Hout, Hnext.
      subst next.
      replace ws with (w :: take n (le_words rest)) by reflexivity.
      clear ws. cbn [length].
      set (ws' := take n (le_words rest)) in *.
      replace (p + Z.of_nat (S (length ws'))) with (p + 1 + Z.of_nat (length ws')) by lia.
      exists m'. split.
      * cbn [fread_words]. rewrite bind_unfold, mem_set_ok by (assumption || lia).
        cbv beta iota. rewrite Hw, bind_unfold, Hrun. reflexivity.
      * split; [eapply same_but_memory_trans; [apply same_but_memory_poke | exact Hs] |].
        split; [| split].
        -- intros [| i] Hi.
           ++ replace (p + Z.of_nat 0) with p by lia. rewrite Hout by lia.
              apply cell_poke_eq; [assumption | lia].
           ++ cbn [lookup list_lookup]. rewrite <- Hin by lia. f_equal. lia.
        -- intros a Ha Hr. rewrite Hout by lia. apply cell_poke_ne; lia.
        -- rewrite Hnext, partly_read_pair. rewrite cell_poke_ne by lia. reflexivity.
Qed.

(** The second loop swaps the bytes of each of the [k] cells from [p] on. *)
Lemma swap_loop_cells k : forall p m,
  Z.of_nat (length (memory m)) = 65535 -> 0 <= p -> p + Z.of_nat k <= 65535 ->
  exists m',
    swap_loop p k m = Ok tt m'
    /\ same_but_memory m m'
    /\ (forall i, (i < k)%nat ->
        cell (p + Z.of_nat i) m' = swap16 <$> cell (p + Z.of_nat i) m)
    /\ (forall a, 0 <= a -> a < p \/ p + Z.of_nat k <= a -> cell a m' = cell a m).
Proof.
  induction k as [| k IH]; intros p m Hl Hp Hk.
  - exists m. split; [reflexivity |]. split; [apply same_but_memory_refl |].
    split; [intros i Hi; lia | reflexivity].
  - destruct (mem_get_ok m p Hl ltac:(lia)) as (w & Hc & Hw).
    destruct (IH (p + 1) (poke p (swap16 w) m)) as (m' & Hrun & Hs & Hin & Hout);
      [rewrite mem_length_poke; assumption | lia | lia |].
    exists m'. split.
    + cbn [swap_loop]. rewrite bind_unfold, Hw. rewrite bind_unfold, mem_set_ok by (assumption || lia).
      cbv beta iota. unfold swap16 at 1. rewrite wrap16_idem. exact Hrun.
    + split; [eapply same_but_memory_trans; [apply same_but_memory_poke | exact Hs] |].
      split.
      * intros [| i] Hi.
        -- replace (p + Z.of_nat 0) with p by lia. rewrite Hout by lia.
           rewrite Hc. apply cell_poke_eq; [assumption | lia].
        -- replace (p + Z.of_nat (S i)) with (p + 1 + Z.of_nat i) by lia.
           rewrite Hin by lia. rewrite cell_poke_ne by lia. reflexivity.
      * intros a Ha Hr. rewrite Hout by lia. apply cell_poke_ne; lia.
Qed.

(** X13. [readImageFile] on a file that starts with the origin, high byte
    first: the words that follow, high byte first, are stored from the
    origin on, as many as fit before the end of the array.  When the file
    ends on an odd byte before the array does, that byte replaces the low
    half of the cell after the last word, whose high half stays.  Every
    other cell, the registers and the host are as before. *)
Theorem image_loaded_at_origin (b0 b1 : Z) (bytes : list Z) (m : machine) :
  wf m ->
  is_byte b0 -> is_byte b1 -> Forall is_byte bytes ->
  let origin := 256 * b0 + b1 in
  let room := Z.to_nat (65535 - origin) in
  let image := take room (be_words bytes) in
  let next := origin + Z.of_nat (length image) in
  exists m',
    readImageFile (b0 :: b1 :: bytes) m = Ok tt m'
    /\ (forall i, (i < length image)%nat -> cell (origin + Z.of_nat i) m' = image !! i)
    /\ cell next m' = partly_read room bytes (cell next m)
    /\ (forall a, 0 <= a -> a < origin \/ next < a -> cell a m' = cell a m)
    /\ registers m' = registers m
    /\ world m' = world m.
Proof.
  intros Hwf H0 H1 Hb origin room image next.
  apply wf_mem_length in Hwf.
  unfold is_byte in H0, H1.
  assert (Ho : swap16 (to_uchar b0 + 256 * to_uchar b1) = origin).
  { unfold to_uchar. rewrite !Z.mod_small by lia. rewrite swap16_bytes by lia.
    unfold origin. lia. }
  assert (Hmax : wrap16 (UINT16_MAX - origin) = 65535 - origin)
    by (apply wrap16_small; unfold UINT16_MAX, origin; lia).
  destruct (fread_words_cells room bytes origin m Hwf)
    as (m1 & Hr1 & Hs1 & Hin1 & Hout1 & Hnext1);
    [unfold origin; lia | unfold room, origin; lia | assumption |].
  cbv zeta in Hr1, Hin1, Hout1, Hnext1.
  set (ws := take room (le_words bytes)) in *.
  assert (Hlen : length image = length ws).
  { unfold image, ws. rewrite <- swap_le_words by assumption.
    rewrite <- fmap_take. apply length_fmap. }
  assert (Hk : (length ws <= room)%nat) by (unfold ws; rewrite length_take; lia).
  destruct (swap_loop_cells (length ws) origin m1) as (m2 & Hr2 & Hs2 & Hin2 & Hout2);
    [destruct Hs1 as (-> & _); assumption | unfold origin; lia
    | unfold room, origin in *; lia |].
  subst next. rewrite Hlen.
  exists m2. split.
  - unfold readImageFile. rewrite Ho, Hmax. cbv zeta. fold room.
    rewrite bind_unfold, Hr1. exact Hr2.
  - split; [| split; [| split]].
    + intros i Hi. rewrite Hin2, Hin1 by lia.
      unfold image, ws. rewrite <- swap_le_words by assumption.
      rewrite <- fmap_take. rewrite list_lookup_fmap. reflexivity.
    + rewrite Hout2 by lia. exact Hnext1.
    + intros a Ha Hr. rewrite Hout2, Hout1 by lia. reflexivity.
    + destruct Hs1 as (_ & Hr1' & Hw1). destruct Hs2 as (_ & Hr2' & Hw2).
      split; congruence.
Qed.

Lemma image_loaded_at_origin_witness :
  exists m',
    readImageFile [0x30; 0x00; 0xF0; 0x25; 0x12] (poke 0x3001 0xABCD (boot quiet)) = Ok tt m'
    /\ cell 0x3000 m' = Some 0xF025
    /\ cell 0x3001 m' = Some 0xAB12
    /\ cell 0x3002 m' = Some 0.
Proof.
  destruct (image_loaded_at_origin 0x30 0x00 [0xF0; 0x25; 0x12]
              (poke 0x3001 0xABCD (boot quiet)))
    as (m' & Hrun & Hin & Hnext & Hout & _).
  - vm_compute. reflexivity.
  - unfold is_byte. lia.
  - unfold is_byte. lia.
  - repeat constructor; unfold is_byte; lia.
  - exists m'. split; [exact Hrun |]. split; [| split].
    + apply (Hin 0%nat). vm_compute. lia.
    + etransitivity; [exact Hnext | vm_compute; reflexivity].
    + rewrite Hout; [vm_compute; reflexivity | lia | right; vm_compute; reflexivity].
Defined.

(** ** The state invariant *)

Lemma forallb_Forall {A} (f : A -> bool) l :
  forallb f l = true <-> Forall (fun x => f x = true) l.
Proof.
  induction l as [| x l IH]; cbn [forallb].
  - split; [constructor | reflexivity].
  - rewrite andb_true_iff, IH, Forall_cons. reflexivity.
Qed.

Lemma wf_unfold m :
  wf m <->
  Z.of_nat (length (memory m)) = 65535
  /\ length (registers m) = 10%nat
  /\ Forall (fun v => is_word v = true) (registers m)
  /\ Forall (fun v => is_word v = true) (memory m).
Proof.
  unfold wf, wfb. rewrite !andb_true_iff, !Z.eqb_eq, !forallb_Forall.
  unfold UINT16_MAX, R_COUNT. split.
  - intros [[[H1 H2] H3] H4]. repeat split; try assumption. lia.
  - intros (H1 & H2 & H3 & H4). repeat split; try assumption. lia.
Qed.

Lemma is_word_wrap16 v : is_word (wrap16 v) = true.
Proof. apply is_word_range, wrap16_range. Qed.

Lemma wf_setr r v m : wf m -> wf (setr r (wrap16 v) m).
Proof.
  rewrite !wf_unfold. intros (H1 & H2 & H3 & H4). unfold setr. cbn [memory registers].
  rewrite length_insert. repeat split; try assumption.
  apply Forall_insert; [assumption | apply is_word_wrap16].
Qed.

Lemma wf_poke a v m : wf m -> wf (poke a (wrap16 v) m).
Proof.
  rewrite !wf_unfold. intros (H1 & H2 & H3 & H4). unfold poke. cbn [memory registers].
  rewrite length_insert. repeat split; try assumption.
  apply Forall_insert; [assumption | apply is_word_wrap16].
Qed.

Lemma sound_on_world f m : sound m -> sound (on_world f m).
Proof. intros H. exact H. Qed.

Lemma sound_poke a v m : sound m -> sound (poke a (wrap16 v) m).
Proof. intros [H1 H2]. split; [apply wf_poke; assumption | exact H2]. Qed.

Lemma sound_setr r v m : 0 <= r < 9 -> sound m -> sound (setr r (wrap16 v) m).
Proof.
  intros Hr [H1 H2]. split; [apply wf_setr; assumption |].
  unfold flags_valid. rewrite reg_setr_ne by (unfold R_COND; lia). exact H2.
Qed.

Lemma sound_set_flag v m :
  v = FL_POS \/ v = FL_ZRO \/ v = FL_NEG -> sound m -> sound (setr R_COND (wrap16 v) m).
Proof.
  intros Hv [H1 H2]. split; [apply wf_setr; assumption |].
  unfold flags_valid. rewrite reg_setr_eq by (apply wf_regs_length in H1; assumption || (unfold R_COND; lia)).
  destruct Hv as [-> | [-> | ->]]; vm_compute; tauto.
Qed.

Section Keeps.
Context {P : machine -> Prop}.

Lemma keeps_ret {A} (a : A) : keeps P (mret a).
Proof. intros m H. exact H. Qed.

Lemma keeps_bind {A B} (c : M A) (f : A -> M B) :
  keeps P c -> (forall a, keeps P (f a)) -> keeps P (c ≫= f).
Proof.
  intros Hc Hf m H. rewrite bind_unfold. specialize (Hc m H).
  destruct (c m) as [a m' | | | |]; try assumption. apply Hf. exact Hc.
Qed.

Lemma keeps_abort {A} : keeps P (abort : M A).
Proof. intros m H. exact H. Qed.

Lemma keeps_get_reg r : keeps P (get_reg r).
Proof. intros m H. unfold get_reg. destruct (_ !! _); [exact H | exact I]. Qed.

Lemma keeps_mem_get a : keeps P (mem_get a).
Proof. intros m H. unfold mem_get. destruct (_ !! _); [exact H | exact I]. Qed.

Lemma keeps_set_reg r v :
  (forall m, P m -> P (setr r (wrap16 v) m)) -> keeps P (set_reg r v).
Proof. intros Hs m H. unfold set_reg. destruct (_ <? _)%nat; [apply Hs, H | exact I]. Qed.

Lemma keeps_mem_set a v :
  (forall m, P m -> P (poke a (wrap16 v) m)) -> keeps P (mem_set a v).
Proof. intros Hs m H. unfold mem_set. destruct (_ <? _)%nat; [apply Hs, H | exact I]. Qed.

Lemma keeps_with_world f :
  (forall m, P m -> P (on_world f m)) -> keeps P (with_world f).
Proof. intros Hs m H. apply Hs, H. Qed.
End Keeps.

Lemma keeps_check_key : keeps sound check_key.
Proof. intros m H. exact H. Qed.

Lemma keeps_getchar : keeps sound getchar.
Proof. intros m H. exact H. Qed.

Ltac keeps_step :=
  lazymatch goal with
  | |- keeps _ (mbind _ _) => apply keeps_bind; [| intros ?]
  | |- keeps _ (mret _) => apply keeps_ret
  | |- keeps _ abort => apply keeps_abort
  | |- keeps _ (if ?b then _ else _) => destruct b
  | |- keeps _ (get_reg _) => apply keeps_get_reg
  | |- keeps _ (mem_get _) => apply keeps_mem_get
  | |- keeps _ (mem_set _ _) => apply keeps_mem_set; intros ?; apply sound_poke
  | |- keeps _ (set_reg R_COND _) =>
      apply keeps_set_reg; intros ?; apply sound_set_flag; tauto
  | |- keeps _ (set_reg _ _) =>
      apply keeps_set_reg; intros ?; apply sound_setr;
      first [ match goal with |- context [Z.land ?x 7] =>
                pose proof (reg_field_range x); lia end
            | unfold R_PC, R_R7, R_R0; lia ]
  | |- keeps _ check_key => apply keeps_check_key
  | |- keeps _ getchar => apply keeps_getchar
  | |- keeps _ (putc _) => apply keeps_with_world; intros ? ?; assumption
  | |- keeps _ fflush => apply keeps_with_world; intros ? ?; assumption
  | |- keeps _ (printf _) => apply keeps_with_world; intros ? ?; assumption
  end.

Lemma keeps_mem_read a : keeps sound (mem_read a).
Proof. unfold mem_read. cbv zeta. repeat keeps_step. Qed.

Lemma keeps_mem_write a v : keeps sound (mem_write a v).
Proof. unfold mem_write. repeat keeps_step. Qed.

Lemma keeps_updateFlgs r : keeps sound (updateFlgs r).
Proof. unfold updateFlgs. cbv zeta. repeat keeps_step. Qed.

Lemma keeps_puts_loop c : keeps sound (puts_loop c).
Proof.
  induction c as [| w c IH]; [intros m H; exact I |].
  cbn [puts_loop]. destruct (negb _); [| apply keeps_ret].
  apply keeps_bind; [keeps_step | intros _; exact IH].
Qed.

Lemma keeps_putsp_loop c : keeps sound (putsp_loop c).
Proof.
  induction c as [| w c IH]; [intros m H; exact I |].
  cbn [putsp_loop]. destruct (negb _); [| apply keeps_ret]. cbv zeta.
  apply keeps_bind; [keeps_step | intros _].
  apply keeps_bind; [repeat keeps_step | intros _; exact IH].
Qed.

Ltac keeps_more :=
  lazymatch goal with
  | |- keeps _ (mem_read _) => apply keeps_mem_read
  | |- keeps _ (mem_write _ _) => apply keeps_mem_write
  | |- keeps _ (updateFlgs _) => apply keeps_updateFlgs
  | |- keeps _ (fun m => puts_loop _ m) =>
      let m := fresh in let H := fresh in
      intros m H; apply (keeps_puts_loop _ m H)
  | |- keeps _ (fun m => putsp_loop _ m) =>
      let m := fresh in let H := fresh in
      intros m H; apply (keeps_putsp_loop _ m H)
  | _ => keeps_step
  end.

Lemma keeps_execute instr : keeps sound (execute instr).
Proof.
  unfold execute, exec_ADD, exec_AND, exec_NOT, exec_BR, exec_JMP, exec_JSR,
    exec_LD, exec_LDI, exec_LDR, exec_LEA, exec_ST, exec_STI, exec_STR, exec_TRAP.
  cbv zeta. repeat keeps_more.
Qed.

Lemma keeps_cycle : keeps sound cycle.
Proof.
  unfold cycle, fetch. repeat keeps_more. apply keeps_execute.
Qed.

Lemma keeps_run fuel : keeps sound (run fuel).
Proof.
  induction fuel as [| fuel IH]; [intros m H; exact H |].
  cbn [run]. apply keeps_bind; [apply keeps_cycle |].
  intros [|]; [exact IH | apply keeps_ret].
Qed.

Lemma keeps_fread_words n : forall p bytes, keeps sound (fread_words p n bytes).
Proof.
  induction n as [| n IH]; intros p bytes; [apply keeps_ret |].
  destruct bytes as [| b0 [| b1 rest]]; [apply keeps_ret | |].
  - cbn [fread_words]. apply keeps_bind; [keeps_step | intros w].
    apply keeps_bind; [keeps_step | intros _; apply keeps_ret].
  - cbn [fread_words]. apply keeps_bind; [keeps_step | intros _].
    apply keeps_bind; [apply IH | intros k; apply keeps_ret].
Qed.

Lemma keeps_swap_loop n : forall p, keeps sound (swap_loop p n).
Proof.
  induction n as [| n IH]; intros p; [apply keeps_ret |].
  cbn [swap_loop]. apply keeps_bind; [keeps_step | intros w].
  apply keeps_bind; [keeps_step | intros _; apply IH].
Qed.

Lemma keeps_readImage path : keeps sound (readImage path).
Proof.
  unfold readImage. apply keeps_bind; [intros m H; exact H |].
  intros [f |]; [| apply keeps_ret].
  apply keeps_bind; [| intros _; apply keeps_ret].
  unfold readImageFile. destruct f as [| b0 [| b1 rest]]; try apply keeps_ret.
  cbv zeta. apply keeps_bind; [apply keeps_fread_words | intros k; apply keeps_swap_loop].
Qed.

Lemma keeps_load_images paths : keeps sound (load_images paths).
Proof.
  induction paths as [| path rest IH]; [apply keeps_ret |].
  cbn [load_images]. apply keeps_bind; [apply keeps_readImage | intros ok].
  destruct (ok =? 0); [| exact IH].
  apply keeps_bind; [keeps_step | intros _ m H; exact H].
Qed.

Lemma sound_boot h : sound (boot h).
Proof. split; [vm_compute; reflexivity | left; vm_compute; reflexivity]. Qed.

(** The loading loop never leaves an array: it returns, or it exits with
    status 1. *)
Lemma load_images_returns paths : forall m,
  Z.of_nat (length (memory m)) = 65535 ->
  (exists m', load_images paths m = Ok tt m')
  \/ (exists m', load_images paths m = Exit 1 m').
Proof.
  induction paths as [| p paths IH]; intros m Hl; [left; exists m; reflexivity |].
  cbn [load_images]. rewrite bind_unfold.
  destruct (lookup_file p (files (world m))) as [f |] eqn:Hf.
  - destruct (readImage_loads p f m Hl Hf) as (m1 & -> & Hlen1 & _).
    cbn [Z.eqb]. apply IH. rewrite Hlen1. exact Hl.
  - right. unfold readImage. rewrite bind_unfold, fopen_eq, Hf. cbv beta iota.
    rewrite mret_eq. cbv beta iota. cbn [Z.eqb].
    rewrite bind_unfold, printf_eq. cbv beta iota. eexists. reflexivity.
Qed.

Lemma signal_eq m : signal m = Ok tt (on_world (emit [EvSignal]) m).
Proof. reflexivity. Qed.

Lemma disable_input_buffering_eq m :
  disable_input_buffering m = Ok tt (on_world (emit [EvRawMode]) m).
Proof. reflexivity. Qed.

Lemma restore_input_buffering_eq m :
  restore_input_buffering m = Ok tt (on_world (emit [EvRestoreMode]) m).
Proof. reflexivity. Qed.

(** X14. Whatever the command line, the files and the input, when main
    ends, stops or is still running after any number of cycles, both
    arrays have their declared sizes, every cell and register holds a
    16-bit value, and the flags register holds 0 or one of the three
    flags.  Start-up never leaves an array, whatever the files hold:
    main does so only when every image has been loaded and the machine
    loop itself, started at 0x3000 on that sound state, leaves one. *)
Theorem main_keeps_state_sound (fuel : nat) (argv : list string) (h : host) :
  match main fuel argv (boot h) with
  | Ok _ m' | Exit _ m' | Abort m' | Spin m' => sound m'
  | Undefined =>
      exists m0,
        load_images (tail argv) (boot h) = Ok tt m0
        /\ sound m0
        /\ run fuel (setr R_PC PC_START (on_world (emit [EvSignal; EvRawMode]) m0))
           = Undefined
  end.
Proof.
  assert (H : keeps sound (main fuel argv)).
  { unfold main. cbv zeta.
    apply keeps_bind.
    { destruct (_ <? 2); [| apply keeps_ret].
      apply keeps_bind; [keeps_step | intros _ m Hm; exact Hm]. }
    intros _. apply keeps_bind; [apply keeps_load_images | intros _].
    apply keeps_bind; [apply keeps_with_world; intros ? ?; assumption | intros _].
    apply keeps_bind; [apply keeps_with_world; intros ? ?; assumption | intros _].
    apply keeps_bind; [keeps_step | intros _].
    apply keeps_bind; [apply keeps_run | intros _].
    apply keeps_bind; [apply keeps_with_world; intros ? ?; assumption | intros _].
    apply keeps_ret. }
  specialize (H (boot h) (sound_boot h)).
  destruct (main fuel argv (boot h)) as [code m' | code m' | m' | m' |] eqn:E;
    try exact H.
  clear H. unfold main in E. cbv zeta in E. rewrite bind_unfold in E.
  destruct (Z.of_nat (length argv) <? 2).
  { rewrite bind_unfold, printf_eq in E. discriminate E. }
  rewrite mret_eq, bind_unfold in E.
  pose proof (keeps_load_images (tail argv) (boot h) (sound_boot h)) as Hs.
  destruct (load_images_returns (tail argv) (boot h) (boot_mem_length h))
    as [(m0 & L) | (m0 & L)]; rewrite L in E, Hs; [| discriminate E].
  exists m0. split; [exact L |]. split; [exact Hs |].
  rewrite bind_unfold, signal_eq, bind_unfold, disable_input_buffering_eq in E.
  rewrite on_world_emit in E. cbn [app] in E.
  rewrite bind_unfold, set_reg_ok in E;
    [| cbn [registers on_world]; apply wf_regs_length, Hs | unfold R_PC; lia].
  change (wrap16 PC_START) with PC_START in E. rewrite bind_unfold in E.
  destruct (run fuel _) as [[] m1 | | | |]; try discriminate E. reflexivity.
Qed.

Lemma main_keeps_state_sound_witness :
  after (main 2 ["lc3"; "stub.obj"; "ok.obj"]%string (boot short_image)) (reg R_PC)
  = Some (0, 0x3001)
  /\ match main 2 ["lc3"; "stub.obj"; "ok.obj"]%string (boot short_image) with
     | Ok _ m' => sound m'
     | _ => False
     end.
Proof.
  assert (Hobs : after (main 2 ["lc3"; "stub.obj"; "ok.obj"]%string (boot short_image))
                       (reg R_PC) = Some (0, 0x3001)) by (vm_compute; reflexivity).
  split; [exact Hobs |].
  pose proof (main_keeps_state_sound 2 ["lc3"; "stub.obj"; "ok.obj"]%string short_image)
    as H.
  remember (main 2 ["lc3"; "stub.obj"; "ok.obj"]%string (boot short_image)) as r eqn:E in *.
  clear E. destruct r as [code m' | code m' | m' | m' |];
    [exact H | | | |]; discriminate Hobs.
Defined.

(** ** What the handlers leave alone *)

(** X15. ADD, AND, NOT, LEA, BR, JMP and JSR always return with the loop
    going on, and they neither write to memory nor touch the host: no
    poll, no input, no output. *)
Theorem register_opcodes_leave_memory (instr : Z) (m : machine) :
  wf m ->
  register_only (Z.shiftr instr 12) = true ->
  exists m',
    execute instr m = Ok true m'
    /\ memory m' = memory m
    /\ world m' = world m.
Proof.
  intros Hwf Hop. apply wf_regs_length in Hwf.
  unfold register_only in Hop. apply bool_decide_eq_true in Hop.
  rewrite !elem_of_cons, elem_of_nil in Hop.
  destruct Hop as [H | [H | [H | [H | [H | [H | [H | []]]]]]]];
    eexists; (split; [dispatch H; apply handler_continues |]).
  - apply exec_ADD_eq; assumption.
  - split; reflexivity.
  - apply exec_AND_eq; assumption.
  - split; reflexivity.
  - apply exec_NOT_eq; assumption.
  - split; reflexivity.
  - apply exec_LEA_eq; assumption.
  - split; reflexivity.
  - apply exec_BR_eq; assumption.
  - destruct (_ =? 0); split; reflexivity.
  - apply exec_JMP_eq; assumption.
  - split; reflexivity.
  - apply exec_JSR_adds; assumption.
  - split; reflexivity.
Qed.

Lemma register_opcodes_leave_memory_witness :
  exists m', execute 0xE1FF (boot keyed) = Ok true m'
             /\ memory m' = memory (boot keyed)
             /\ world m' = world (boot keyed).
Proof.
  apply (register_opcodes_leave_memory 0xE1FF (boot keyed)).
  - vm_compute. reflexivity.
  - reflexivity.
Defined.

Lemma same_but_R0_same m m' :
  memory m' = memory m -> registers m' = registers m -> same_but_R0 m m'.
Proof. intros Hm Hr. split; [exact Hm |]. intros r _. unfold reg. rewrite Hr. reflexivity. Qed.

Lemma same_but_R0_set v m m0 :
  registers m0 = registers m -> memory m0 = memory m ->
  same_but_R0 m (setr R_R0 v m0).
Proof.
  intros Hr Hm. split; [exact Hm |].
  intros r Hr0. rewrite reg_setr_ne by (unfold R_R0; lia).
  unfold reg. rewrite Hr. reflexivity.
Qed.

Lemma puts_loop_frame c : forall m,
  outcome (puts_loop c m) True
          (fun _ m' => memory m' = memory m /\ registers m' = registers m).
Proof.
  induction c as [| w c IH]; intros m; [exact I |].
  cbn [puts_loop]. destruct (negb _); [| split; reflexivity].
  io_steps.
  match goal with |- outcome (puts_loop c ?m0) _ _ => exact (IH m0) end.
Qed.

Lemma putsp_loop_frame c : forall m,
  outcome (putsp_loop c m) True
          (fun _ m' => memory m' = memory m /\ registers m' = registers m).
Proof.
  induction c as [| w c IH]; intros m; [exact I |].
  cbn [putsp_loop]. destruct (negb _); [| split; reflexivity].
  io_steps. destruct (negb _); io_steps;
    match goal with |- outcome (putsp_loop c ?m0) _ _ => exact (IH m0) end.
Qed.

(** X16. Whatever its vector, a TRAP that returns leaves memory and every
    register but R0 as they were: the program counter, the flags and
    R1..R7 included. *)
Theorem traps_touch_only_R0 (instr : Z) (m : machine) :
  wf m ->
  Z.shiftr instr 12 = OP_TRAP ->
  outcome (execute instr m) True (fun _ m' => same_but_R0 m m').
Proof.
  intros Hwf Hop. apply wf_regs_length in Hwf.
  destruct (known_vector (Z.land instr 0xFF)) eqn:Hk.
  - unfold known_vector in Hk. apply bool_decide_eq_true in Hk.
    rewrite !elem_of_cons, elem_of_nil in Hk.
    destruct Hk as [H | [H | [H | [H | [H | [H | []]]]]]];
      dispatch Hop; vector H; io_steps;
      rewrite ?get_reg_ok by reg_index; io_steps.
    + rewrite set_reg_ok by (exact Hwf || (unfold R_R0; lia)). cbv beta iota.
      apply same_but_R0_set; reflexivity.
    + apply same_but_R0_same; reflexivity.
    + match goal with |- context [puts_loop ?c ?m0] =>
        pose proof (puts_loop_frame c m0) as Hf; destruct (puts_loop c m0) end;
        cbn [outcome] in *; try contradiction; [| exact I].
      io_steps. destruct Hf as [Hm Hr]. apply same_but_R0_same; assumption.
    + rewrite set_reg_ok by (exact Hwf || (unfold R_R0; lia)). cbv beta iota.
      apply same_but_R0_set; reflexivity.
    + match goal with |- context [putsp_loop ?c ?m0] =>
        pose proof (putsp_loop_frame c m0) as Hf; destruct (putsp_loop c m0) end;
        cbn [outcome] in *; try contradiction; [| exact I].
      io_steps. destruct Hf as [Hm Hr]. apply same_but_R0_same; assumption.
    + apply same_but_R0_same; reflexivity.
  - rewrite unknown_vector_is_skipped by assumption. apply same_but_R0_same; reflexivity.
Qed.

Lemma traps_touch_only_R0_witness :
  outcome (execute 0xF020 (boot accent)) True (fun _ m' => same_but_R0 (boot accent) m').
Proof.
  apply (traps_touch_only_R0 0xF020 (boot accent)).
  - vm_compute. reflexivity.
  - reflexivity.
Defined.

(** ** main, when every image loads *)

Lemma load_images_all paths : forall m,
  Z.of_nat (length (memory m)) = 65535 ->
  (forall p, p ∈ paths ->
     exists f, lookup_file p (files (world m)) = Some f /\ (2 <= length f)%nat) ->
  exists m',
    load_images paths m = Ok tt m'
    /\ same_but_memory (on_world (emit (map (fun p => EvFopen p true) paths)) m) m'.
Proof.
  induction paths as [| p paths IH]; intros m Hl Hall.
  - exists m. split; [reflexivity |]. cbn [map]. rewrite on_world_emit_nil.
    apply same_but_memory_refl.
  - destruct (Hall p ltac:(left)) as (f & Hf & Hlen).
    destruct (readImage_loads p f m Hl Hf) as (m1 & Hr & Hlen1 & Hregs1 & Hw1).
    destruct (IH m1) as (m' & Hrun & Hlen' & Hregs' & Hw').
    + rewrite Hlen1. exact Hl.
    + intros q Hq. rewrite Hw1. apply Hall. right. exact Hq.
    + exists m'. split.
      * cbn [load_images]. rewrite bind_unfold, Hr. exact Hrun.
      * cbn [map]. split; [| split].
        -- rewrite Hlen'. exact Hlen1.
        -- rewrite Hregs'. exact Hregs1.
        -- rewrite Hw'. cbn [world on_world]. rewrite Hw1. cbn [world on_world].
           rewrite emit_emit. reflexivity.
Qed.

(** X17. When every path given opens on a file that holds the origin word,
    main loads them all in command-line order, installs the interrupt
    handler, sets the terminal mode, puts 0x3000 in the program counter
    and runs the loop; it restores the terminal mode and returns 0 when
    the loop ends by itself, and only then. *)
Theorem main_runs_loaded_images
    (fuel : nat) (prog : string) (paths : list string) (h : host) :
  paths <> [] ->
  (forall p, p ∈ paths ->
     exists f, lookup_file p (files h) = Some f /\ (2 <= length f)%nat) ->
  exists m0,
    load_images paths (boot h) = Ok tt m0
    /\ registers m0 = registers (boot h)
    /\ world m0 = emit (map (fun p => EvFopen p true) paths) h
    /\ main fuel (prog :: paths) (boot h)
       = finish (run fuel (setr R_PC PC_START
                             (on_world (emit [EvSignal; EvRawMode]) m0))).
Proof.
  intros Hne Hall.
  destruct (load_images_all paths (boot h) (boot_mem_length h) Hall)
    as (m0 & Hload & Hlen & Hregs & Hw).
  exists m0. split; [exact Hload |]. split; [exact Hregs |]. split; [exact Hw |].
  unfold main. cbn [tail].
  assert (Hargc : (Z.of_nat (length (prog :: paths)) <? 2) = false).
  { apply Z.ltb_ge. destruct paths; [contradiction | cbn [length]; lia]. }
  rewrite Hargc. io_steps. rewrite Hload. io_steps.
  rewrite signal_eq. io_steps. rewrite disable_input_buffering_eq. io_steps.
  rewrite on_world_emit.
  rewrite set_reg_ok; [| cbn [registers on_world]; rewrite Hregs; reflexivity
                       | unfold R_PC; lia].
  cbv beta iota. change (wrap16 PC_START) with PC_START.
  cbn [app]. rewrite bind_unfold. destruct (run fuel _); reflexivity.
Qed.

Lemma main_runs_loaded_images_witness :
  exists m0,
    load_images ["ok.obj"%string] (boot one_image) = Ok tt m0
    /\ world m0 = emit [EvFopen "ok.obj" true] one_image.
Proof.
  destruct (main_runs_loaded_images 1 "lc3" ["ok.obj"%string] one_image)
    as (m0 & Hload & _ & Hw & _).
  - discriminate.
  - intros p Hp. apply list_elem_of_singleton in Hp. subst p.
    exists [0x30; 0x00; 0xF0; 0x25]. split; [reflexivity | simpl; lia].
  - exists m0. split; [exact Hload | exact Hw].
Defined.

(** ** AND and NOT *)

Lemma land_is_word a b : 0 <= a < 65536 -> 0 <= Z.land a b < 65536.
Proof.
  intros Ha. split; [apply Z.land_nonneg; lia |].
  assert (H : Z.land a b = Z.land (Z.land a b) (Z.ones 16)).
  { rewrite <- Z.land_assoc, (Z.land_comm b), Z.land_assoc.
    rewrite (Z.land_ones a 16), (Z.mod_small a) by (change (2 ^ 16) with 65536; lia).
    reflexivity. }
  rewrite H, Z.land_ones by lia. apply Z.mod_pos_bound. reflexivity.
Qed.

(** X18. AND puts in DR the bitwise and of SR1 and of the second operand;
    with the immediate field 0 it clears DR and sets the flag ZERO.  NOT
    puts in DR the 16-bit complement of SR1, every bit inverted.  Neither
    changes another register but the flags. *)
Theorem and_masks_not_complements (instr : Z) (m : machine) :
  wf m ->
  let dr := Z.land (Z.shiftr instr 9) 7 in
  let sr1 := Z.land (Z.shiftr instr 6) 7 in
  (Z.shiftr instr 12 = OP_AND ->
   exists m',
     execute instr m = Ok true m'
     /\ reg dr m' = Z.land (reg sr1 m) (operand2 instr m)
     /\ (Z.testbit instr 5 = true -> Z.land instr 0x1F = 0 ->
         reg dr m' = 0 /\ reg R_COND m' = FL_ZRO)
     /\ same_registers_but dr m m')
  /\ (Z.shiftr instr 12 = OP_NOT ->
      exists m',
        execute instr m = Ok true m'
        /\ reg dr m' = 65535 - reg sr1 m
        /\ (forall i, 0 <= i < 16 ->
            Z.testbit (reg dr m') i = negb (Z.testbit (reg sr1 m) i))
        /\ same_registers_but dr m m').
Proof.
  intros Hwf dr sr1.
  pose proof (wf_reg_word m sr1 Hwf) as Hs. apply wf_regs_length in Hwf.
  pose proof (reg_field_range (Z.shiftr instr 9)) as Hdr. fold dr in Hdr.
  split; intros Hop.
  - eexists. split; [dispatch Hop; apply handler_continues; apply exec_AND_eq; assumption |].
    cbv zeta. fold dr sr1.
    rewrite (wrap16_small (Z.land (reg sr1 m) _)) by (apply land_is_word; assumption).
    destruct (written_back_frame dr (Z.land (reg sr1 m) (operand2 instr m)) m Hwf Hdr)
      as (H1 & H2 & _).
    split; [exact H1 |]. split; [| exact H2].
    intros Hb Hz. rewrite H1.
    assert (H0 : Z.land (reg sr1 m) (operand2 instr m) = 0).
    { unfold operand2. rewrite Hb, Hz. change (signExtend 0 5) with 0. apply Z.land_0_r. }
    split; [exact H0 |]. rewrite H0.
    apply reg_setr_eq; [rewrite regs_length_setr; assumption | unfold R_COND; lia].
  - eexists. split; [dispatch Hop; apply handler_continues; apply exec_NOT_eq; assumption |].
    cbv zeta. fold dr sr1. rewrite lnot_word by assumption.
    destruct (written_back_frame dr (65535 - reg sr1 m) m Hwf Hdr) as (H1 & H2 & _).
    split; [exact H1 |]. split; [| exact H2].
    intros i Hi. rewrite H1.
    replace (65535 - reg sr1 m) with (Z.lnot (reg sr1 m) mod 2 ^ 16)
      by (rewrite <- (lnot_word (reg sr1 m)) by assumption; reflexivity).
    rewrite Z.mod_pow2_bits_low by lia. apply Z.lnot_spec. lia.
Qed.

Lemma and_masks_not_complements_witness :
  (exists m', execute 0x5260 add_state = Ok true m' /\ reg 1 m' = 0)
  /\ (exists m', execute 0x927F add_state = Ok true m' /\ reg 1 m' = 0x8000).
Proof.
  destruct (and_masks_not_complements 0x5260 add_state) as [Hand _];
    [vm_compute; reflexivity |].
  destruct (and_masks_not_complements 0x927F add_state) as [_ Hnot];
    [vm_compute; reflexivity |].
  split.
  - destruct Hand as (m' & He & _ & Hz & _); [reflexivity |].
    exists m'. split; [exact He |]. apply Hz; reflexivity.
  - destruct Hnot as (m' & He & Hr & _); [reflexivity |].
    exists m'. split; [exact He |]. vm_compute in Hr |- *. exact Hr.
Defined.

(** ** The keyboard status cell *)

(** X19. A value written to the keyboard-status address is stored but never
    read back: the next read of that address polls the console and
    returns 0x8000 or 0, which also replaces the stored value. *)
Theorem status_cell_is_not_read_back (v : Z) (m : machine) :
  wf m ->
  exists m1 m2,
    mem_write MR_KBSR v m = Ok tt m1
    /\ cell MR_KBSR m1 = Some (wrap16 v)
    /\ mem_read MR_KBSR m1 = Ok (if pending (world m) then 0x8000 else 0) m2
    /\ cell MR_KBSR m2 = Some (if pending (world m) then 0x8000 else 0).
Proof.
  intros Hwf. apply wf_mem_length in Hwf.
  assert (Hk : wrap16 MR_KBSR = MR_KBSR) by reflexivity.
  exists (poke MR_KBSR (wrap16 v) m).
  assert (Hl : Z.of_nat (length (memory (poke MR_KBSR (wrap16 v) m))) = 65535)
    by (rewrite mem_length_poke; assumption).
  destruct (pending (world m)) eqn:Hp; eexists.
  - split; [rewrite <- Hk at 2; apply mem_write_ok; [assumption | rewrite Hk; unfold MR_KBSR; lia] |].
    split; [apply cell_poke_eq; [assumption | unfold MR_KBSR; lia] |].
    split; [apply status_read_key; assumption |].
    rewrite cell_poke_ne by (unfold MR_KBDR, MR_KBSR; lia).
    apply cell_poke_eq; [rewrite memory_on_world; assumption | unfold MR_KBSR; lia].
  - split; [rewrite <- Hk at 2; apply mem_write_ok; [assumption | rewrite Hk; unfold MR_KBSR; lia] |].
    split; [apply cell_poke_eq; [assumption | unfold MR_KBSR; lia] |].
    split; [apply status_read_idle; assumption |].
    apply cell_poke_eq; [rewrite memory_on_world; assumption | unfold MR_KBSR; lia].
Qed.

Lemma status_cell_is_not_read_back_witness :
  exists m1 m2,
    mem_write MR_KBSR 0x1234 (boot keyed) = Ok tt m1
    /\ cell MR_KBSR m1 = Some 0x1234
    /\ mem_read MR_KBSR m1 = Ok 0x8000 m2.
Proof.
  destruct (status_cell_is_not_read_back 0x1234 (boot keyed))
    as (m1 & m2 & Hw & Hc & Hr & _).
  - vm_compute. reflexivity.
  - exists m1, m2. split; [exact Hw |]. split; [exact Hc | exact Hr].
Defined.
